(** * d825_unpack: segment recovery and SquashFS materialisation

    A shallow embedding of [main.py].  The program is a sequential Python
    script: it reads a firmware image, searches a raw LZMA stream around a
    nominal offset, slices out a SquashFS container, and unpacks that
    container under [extracted_firmware/squashfs_contents].

    Python values are modelled as follows: [bytes] is a list of bytes, [str]
    is a [string], [int] is [Z], [None]-or-value is an [option].  Statements
    run in an exception-and-state monad over a [world] made of a POSIX-like
    file tree and the lines printed so far.  The two libraries the script
    treats as black boxes (the raw LZMA decoder and the SquashFS reader) form
    the [Codec] interface. *)

From stdpp Require Import base gmap list strings.
From Stdlib Require Import ZArith Lia DecimalString HexadecimalString.
From Stdlib Require Import Strings.Byte Strings.Ascii.

Set Default Proof Using "Type".

(* ================================================================= *)
(** ** Python built-ins used by the script *)

Abbreviation bytes := (list byte).

Module Py.

(** Index adjustment of a slice bound for a sequence of length [len]
    (step 1): a negative bound counts from the end, and every bound is
    clipped to [0, len]. *)
Definition adjust_index (len i : Z) : Z :=
  if (i <? 0)%Z then (if (i + len <? 0)%Z then 0%Z else (i + len)%Z)
  else if (len <=? i)%Z then len else i.

(** [l[start:stop]] *)
Definition slice {A} (l : list A) (start stop : Z) : list A :=
  let len := Z.of_nat (length l) in
  let a := adjust_index len start in
  let b := adjust_index len stop in
  take (Z.to_nat (b - a)) (drop (Z.to_nat a) l).

(** [l[start:]] *)
Definition slice_from {A} (l : list A) (start : Z) : list A :=
  drop (Z.to_nat (adjust_index (Z.of_nat (length l)) start)) l.

(** [str(n)] and [f"{n}"] for an [int]. *)
Definition str_int (n : Z) : string :=
  DecimalString.NilZero.string_of_int (Z.to_int n).

Fixpoint upper_hex_digits (u : Hexadecimal.uint) : string :=
  match u with
  | Hexadecimal.Nil => ""
  | Hexadecimal.D0 u => String "0"%char (upper_hex_digits u)
  | Hexadecimal.D1 u => String "1"%char (upper_hex_digits u)
  | Hexadecimal.D2 u => String "2"%char (upper_hex_digits u)
  | Hexadecimal.D3 u => String "3"%char (upper_hex_digits u)
  | Hexadecimal.D4 u => String "4"%char (upper_hex_digits u)
  | Hexadecimal.D5 u => String "5"%char (upper_hex_digits u)
  | Hexadecimal.D6 u => String "6"%char (upper_hex_digits u)
  | Hexadecimal.D7 u => String "7"%char (upper_hex_digits u)
  | Hexadecimal.D8 u => String "8"%char (upper_hex_digits u)
  | Hexadecimal.D9 u => String "9"%char (upper_hex_digits u)
  | Hexadecimal.Da u => String "A"%char (upper_hex_digits u)
  | Hexadecimal.Db u => String "B"%char (upper_hex_digits u)
  | Hexadecimal.Dc u => String "C"%char (upper_hex_digits u)
  | Hexadecimal.Dd u => String "D"%char (upper_hex_digits u)
  | Hexadecimal.De u => String "E"%char (upper_hex_digits u)
  | Hexadecimal.Df u => String "F"%char (upper_hex_digits u)
  end.

(** [f"{n:X}"] *)
Definition format_X (n : Z) : string :=
  match n with
  | Z0 => "0"
  | Zpos p => upper_hex_digits (Pos.to_hex_uint p)
  | Zneg p => String "-"%char (upper_hex_digits (Pos.to_hex_uint p))
  end.

(** [c * n] for a one-character string [c]. *)
Fixpoint repeat_char (c : ascii) (n : nat) : string :=
  match n with
  | O => ""
  | S n => String c (repeat_char c n)
  end.

(** [f"{s:<width}"]: left-aligned, padded with spaces. *)
Definition ljust (s : string) (width : nat) : string :=
  s +:+ repeat_char " "%char (width - String.length s).

(** [s.lstrip('/')]: every leading slash is removed. *)
Fixpoint lstrip_slash (s : string) : string :=
  match s with
  | String c rest => if Ascii.eqb c "/"%char then lstrip_slash rest else s
  | EmptyString => EmptyString
  end.

(** Truth value of a [str] and of a [bytes] object. *)
Definition truthy_str (s : string) : bool :=
  match s with EmptyString => false | _ => true end.

Definition truthy_bytes (b : bytes) : bool :=
  match b with [] => false | _ => true end.

(** Encoding of text written through a file opened in text mode: a
    [string] already is its byte sequence. *)
Definition encode (s : string) : bytes := String.list_byte_of_string s.

End Py.

(* ================================================================= *)
(** ** Exceptions *)

Inductive errno := ENOENT | EEXIST | EISDIR | ENOTDIR | ELOOP | EPERM.

(** Every constructor is a subclass of Python's [Exception];
    [FileNotFoundError] is [OSError ENOENT], [FileExistsError] is
    [OSError EEXIST], and so on. *)
Inductive exn :=
| OSError (e : errno)
| LZMAError
| ValueError (msg : string)
| CodecError (msg : string).

Definition errno_str (e : errno) : string :=
  match e with
  | ENOENT => "No such file or directory"
  | EEXIST => "File exists"
  | EISDIR => "Is a directory"
  | ENOTDIR => "Not a directory"
  | ELOOP => "Too many levels of symbolic links"
  | EPERM => "Operation not permitted"
  end.

(** [str(e)] *)
Definition exn_str (e : exn) : string :=
  match e with
  | OSError k => errno_str k
  | LZMAError => "Corrupt input data"
  | ValueError msg => msg
  | CodecError msg => msg
  end.

Inductive outcome (A : Type) :=
| Ret (a : A)
| Raise (e : exn).
Arguments Ret {A} a.
Arguments Raise {A} e.

(* ================================================================= *)
(** ** pathlib paths (POSIX flavour) *)

Module Pathlib.

(** [s.split('/')] *)
Fixpoint split_slash (s : string) : list string :=
  match s with
  | EmptyString => [EmptyString]
  | String c rest =>
      if Ascii.eqb c "/"%char then EmptyString :: split_slash rest
      else match split_slash rest with
           | [] => [String c EmptyString]
           | x :: xs => String c x :: xs
           end
  end.

(** The components pathlib (and the kernel) keeps of a path string:
    empty components and [.] are dropped, [..] is kept. *)
Definition parse_parts (s : string) : list string :=
  filter (λ x, x ≠ EmptyString ∧ x ≠ ".") (split_slash s).

Definition is_absolute (s : string) : bool :=
  match s with
  | String c _ => Ascii.eqb c "/"%char
  | EmptyString => false
  end.

Record Path := MkPath { anchored : bool; parts : list string }.

(** [Path(s)] *)
Definition of_str (s : string) : Path :=
  {| anchored := is_absolute s; parts := parse_parts s |}.

(** [p / s]: an absolute right operand replaces the left one. *)
Definition truediv (p : Path) (s : string) : Path :=
  if is_absolute s then of_str s
  else {| anchored := anchored p; parts := parts p ++ parse_parts s |}.

(** [p.parent]: purely lexical, the last component is dropped. *)
Definition parent (p : Path) : Path :=
  {| anchored := anchored p; parts := removelast (parts p) |}.

Fixpoint join_slash (l : list string) : string :=
  match l with
  | [] => EmptyString
  | [x] => x
  | x :: rest => x +:+ "/" +:+ join_slash rest
  end.

(** [str(p)] *)
Definition str (p : Path) : string :=
  match parts p, anchored p with
  | [], true => "/"
  | [], false => "."
  | l, true => "/" +:+ join_slash l
  | l, false => join_slash l
  end.

End Pathlib.

Import Pathlib.

(* ================================================================= *)
(** ** The host file tree *)

Inductive node :=
| Dir
| File (content : bytes)
| Symlink (target : string).

(** Outcome of resolving a path: the canonical location of an existing
    node, a free name inside an existing directory, or an error. *)
Inductive resolved :=
| Found (loc : list string) (n : node)
| Missing (loc : list string)
| Failed (e : errno).

(** The kernel gives up after this many symbolic links in one lookup. *)
Definition MAXSYMLINKS : nat := 40.

(** [walk fuel t follow cur todo] resolves the components [todo] starting
    in the directory at canonical location [cur].  Keys of [t] are canonical
    locations from the file-system root; the root itself is a directory.
    A symbolic link met before the last component is always followed; one
    met as the last component is followed when [follow] is set. *)
Fixpoint walk (fuel : nat) (t : gmap (list string) node) (follow : bool)
    (cur todo : list string) {struct fuel} : resolved :=
  (fix go (cur todo : list string) {struct todo} : resolved :=
     match todo with
     | [] => Found cur Dir
     | c :: rest =>
         if decide (c = "..") then go (removelast cur) rest
         else
           let here := cur ++ [c] in
           match t !! here with
           | None =>
               match rest with [] => Missing here | _ => Failed ENOENT end
           | Some Dir => go here rest
           | Some (File b) =>
               match rest with [] => Found here (File b) | _ => Failed ENOTDIR end
           | Some (Symlink target) =>
               if bool_decide (rest = []) && negb follow
               then Found here (Symlink target)
               else
                 match fuel with
                 | O => Failed ELOOP
                 | S fuel' =>
                     if decide (target = EmptyString) then Failed ENOENT
                     else walk fuel' t follow
                            (if is_absolute target then [] else cur)
                            (parse_parts target ++ rest)
                 end
           end
     end) cur todo.

Record world := World {
  tree : gmap (list string) node;   (* canonical location -> node *)
  cwd : list string;                (* working directory of the process *)
  symlinks_supported : bool;        (* can the host create symbolic links? *)
  stdout : list string              (* lines printed so far *)
}.

Definition with_tree (w : world) (t : gmap (list string) node) : world :=
  {| tree := t; cwd := cwd w;
     symlinks_supported := symlinks_supported w; stdout := stdout w |}.

Definition resolve (w : world) (follow : bool) (p : Path) : resolved :=
  walk MAXSYMLINKS (tree w) follow (if anchored p then [] else cwd w) (parts p).

(* ================================================================= *)
(** ** Statements: state and exceptions *)

Definition M (A : Type) : Type := world → outcome A * world.

#[global] Instance M_ret : MRet M := λ A a w, (Ret a, w).
#[global] Instance M_bind : MBind M := λ A B f m w,
  match m w with
  | (Ret a, w') => f a w'
  | (Raise e, w') => (Raise e, w')
  end.

Definition raise {A} (e : exn) : M A := λ w, (Raise e, w).

(** [try: body / except Exception as e: handler e] *)
Definition try_except {A} (body : M A) (handler : exn → M A) : M A :=
  λ w, match body w with
       | (Ret a, w') => (Ret a, w')
       | (Raise e, w') => handler e w'
       end.

(** [pass] *)
Definition pass : M unit := mret tt.

Definition lift {A} (r : outcome A) : M A := λ w, (r, w).

(** The world after [lines] have been printed. *)
Definition logged (w : world) (lines : list string) : world :=
  {| tree := tree w; cwd := cwd w;
     symlinks_supported := symlinks_supported w;
     stdout := stdout w ++ lines |}.

(** [print(line)] *)
Definition print (line : string) : M unit :=
  λ w, (Ret tt, logged w [line]).

(* ================================================================= *)
(** ** System calls and pathlib methods *)

(** [os.mkdir(p)] *)
Definition os_mkdir (p : Path) : M unit := λ w,
  match resolve w false p with
  | Found _ _ => (Raise (OSError EEXIST), w)
  | Missing loc => (Ret tt, with_tree w (<[loc := Dir]> (tree w)))
  | Failed e => (Raise (OSError e), w)
  end.

(** [p.is_dir()] *)
Definition Path_is_dir (p : Path) : M bool := λ w,
  match resolve w true p with
  | Found _ Dir => (Ret true, w)
  | _ => (Ret false, w)
  end.

(** [p.exists()]: the link is followed, so a dangling symbolic link does
    not exist. *)
Definition Path_exists (p : Path) : M bool := λ w,
  match resolve w true p with
  | Found _ _ => (Ret true, w)
  | _ => (Ret false, w)
  end.

(** [p.unlink()] *)
Definition Path_unlink (p : Path) : M unit := λ w,
  match resolve w false p with
  | Found _ Dir => (Raise (OSError EISDIR), w)
  | Found loc _ => (Ret tt, with_tree w (delete loc (tree w)))
  | Missing _ => (Raise (OSError ENOENT), w)
  | Failed e => (Raise (OSError e), w)
  end.

(** [p.symlink_to(target)] *)
Definition Path_symlink_to (p : Path) (target : string) : M unit := λ w,
  match resolve w false p with
  | Found _ _ => (Raise (OSError EEXIST), w)
  | Missing loc =>
      if negb (symlinks_supported w) then (Raise (OSError EPERM), w)
      else if decide (target = EmptyString) then (Raise (OSError ENOENT), w)
      else (Ret tt, with_tree w (<[loc := Symlink target]> (tree w)))
  | Failed e => (Raise (OSError e), w)
  end.

(** [open(p, 'wb')] and [open(p, 'w')]: the file is created or truncated;
    the handle is the canonical location of the file. *)
Definition open_w (p : Path) : M (list string) := λ w,
  match resolve w true p with
  | Found loc (File _) => (Ret loc, with_tree w (<[loc := File []]> (tree w)))
  | Found _ Dir => (Raise (OSError EISDIR), w)
  | Found _ (Symlink _) => (Raise (OSError ELOOP), w)
  | Missing loc => (Ret loc, with_tree w (<[loc := File []]> (tree w)))
  | Failed e => (Raise (OSError e), w)
  end.

(** [f.write(data)]: appends at the handle's position. *)
Definition write (f : list string) (data : bytes) : M unit := λ w,
  match tree w !! f with
  | Some (File c) => (Ret tt, with_tree w (<[f := File (c ++ data)]> (tree w)))
  | _ => (Ret tt, w)
  end.

(** [open(p, 'rb').read()] *)
Definition read_bytes (p : Path) : M bytes := λ w,
  match resolve w true p with
  | Found _ (File c) => (Ret c, w)
  | Found _ Dir => (Raise (OSError EISDIR), w)
  | Found _ (Symlink _) => (Raise (OSError ELOOP), w)
  | Missing _ => (Raise (OSError ENOENT), w)
  | Failed e => (Raise (OSError e), w)
  end.

(** The [except OSError] clause of [Path.mkdir]: an existing directory is
    accepted when [exist_ok] is set, anything else is raised again. *)
Definition mkdir_except_OSError (p : Path) (exist_ok : bool) (e : exn) : M unit :=
  if negb exist_ok then raise e
  else b ← Path_is_dir p; if b : bool then pass else raise e.

(** [p.mkdir(parents=False, exist_ok=exist_ok)] *)
Definition mkdir_plain (p : Path) (exist_ok : bool) : M unit :=
  try_except (os_mkdir p) (λ e,
    match e with
    | OSError ENOENT => raise e
    | _ => mkdir_except_OSError p exist_ok e
    end).

(** [Path.mkdir(parents, exist_ok)], following pathlib: try [os.mkdir];
    on [FileNotFoundError] create the parent first (when [parents], and
    unless the path is its own parent) and retry without [parents]; on any
    other [OSError] accept an existing directory (when [exist_ok]).  [n]
    bounds the recursion on [p.parent]. *)
Fixpoint mkdir_rec (n : nat) (p : Path) (parents exist_ok : bool) : M unit :=
  try_except (os_mkdir p) (λ e,
    match e with
    | OSError ENOENT =>
        if negb parents || bool_decide (parts (parent p) = parts p) then raise e
        else match n with
             | O => raise e
             | S n' =>
                 mkdir_rec n' (parent p) true true;;
                 mkdir_plain p exist_ok
             end
    | _ => mkdir_except_OSError p exist_ok e
    end).

Definition Path_mkdir (p : Path) (parents exist_ok : bool) : M unit :=
  mkdir_rec (length (parts p)) p parents exist_ok.

(** A Python iterator consumed by a [for] loop: the values it yields and,
    possibly, the exception it raises instead of stopping. *)
Record generator (A : Type) := Generator {
  yields : list A;
  fails : option exn
}.
Arguments Generator {A} yields fails.
Arguments yields {A} g.
Arguments fails {A} g.

(** [for x in l: body x] *)
Fixpoint for_each {A} (l : list A) (body : A → M unit) : M unit :=
  match l with
  | [] => pass
  | x :: rest => body x;; for_each rest body
  end.

(** [for x in g: body x] *)
Definition for_in {A} (g : generator A) (body : A → M unit) : M unit :=
  for_each (yields g) body;;
  match fails g with
  | Some e => raise e
  | None => pass
  end.

(* ================================================================= *)
(** ** The external codecs *)

Inductive kind := Directory | Regular | SymbolicLink | Other.

(** An entry of the SquashFS image, as PySquashfsImage exposes it. *)
Record Item := MkItem {
  path : string;                  (* item.path, rooted at "/" *)
  item_kind : kind;
  iter_bytes : generator bytes;   (* item.iter_bytes() *)
  readlink : outcome string       (* item.readlink() *)
}.

Definition is_dir (item : Item) : bool :=
  match item_kind item with Directory => true | _ => false end.
Definition is_file (item : Item) : bool :=
  match item_kind item with Regular => true | _ => false end.
Definition is_symlink (item : Item) : bool :=
  match item_kind item with SymbolicLink => true | _ => false end.

Record Superblock := MkSuperblock {
  s_magic : Z;
  bytes_used : Z;
  compression : Z;
  block_size : Z;
  inodes : Z;
  fragments : Z;
  inode_table_start : Z;
  directory_table_start : Z;
  fragment_table_start : Z;
  id_table_start : Z;
  xattr_id_table_start : Z
}.

Record Image := MkImage {
  sblk : Superblock;
  image_iter : generator Item     (* iter(image) *)
}.

(** The two decoders the script calls and does not implement. *)
Class Codec := {
  (** [lzma.LZMADecompressor(format=FORMAT_RAW, filters=[{"id":
      FILTER_LZMA1, "dict_size": dict_size}]).decompress(data)] *)
  lzma_raw_decompress : Z → bytes → outcome bytes;
  (** What [SquashFsImage.from_file] makes of the bytes of a file. *)
  squashfs_parse : bytes → outcome Image
}.

(** [SquashFsImage.from_file(name)] *)
Definition SquashFsImage_from_file `{Codec} (name : string) : M Image :=
  data ← read_bytes (of_str name);
  lift (squashfs_parse data).

(* ================================================================= *)
(** ** main.py *)

Inductive Compression := NO | ZLIB | LZMA | LZO | XZ | LZ4 | ZSTD.

(** [Compression(v)] *)
Definition Compression_of (v : Z) : outcome Compression :=
  match v with
  | 0%Z => Ret NO
  | 1%Z => Ret ZLIB
  | 2%Z => Ret LZMA
  | 3%Z => Ret LZO
  | 4%Z => Ret XZ
  | 5%Z => Ret LZ4
  | 6%Z => Ret ZSTD
  | _ => Raise (ValueError (Py.str_int v +:+ " is not a valid Compression"))
  end.

(** [c.name] *)
Definition Compression_name (c : Compression) : string :=
  match c with
  | NO => "NO"
  | ZLIB => "ZLIB"
  | LZMA => "LZMA"
  | LZO => "LZO"
  | XZ => "XZ"
  | LZ4 => "LZ4"
  | ZSTD => "ZSTD"
  end.

Inductive level := info | success | error.

Definition symbols_get (lv : level) : string :=
  match lv with
  | info => "[*]"
  | success => "[+]"
  | error => "[!]"
  end.

Record Firmware := MkFirmware {
  firmware_path : string;
  output_dir : Path
}.

Definition _log (title value : string) (lv : level) : M unit :=
  print (if Py.truthy_str value
         then symbols_get lv +:+ " " +:+ title +:+ ": " +:+ value
         else symbols_get lv +:+ " " +:+ title).

(** [Firmware(firmware_path)] *)
Definition Firmware_init (firmware_path : string) : M Firmware :=
  let self := {| firmware_path := firmware_path;
                 output_dir := of_str "extracted_firmware" |} in
  Path_mkdir (output_dir self) false true;;
  _log "Created output directory" (str (output_dir self)) info;;
  mret self.

Definition print_superblock_info (superblock : Superblock) : M unit :=
  let log := λ title, _log title "" info in
  log (Py.repeat_char "-"%char 40);;
  log "Superblock Information:";;
  log (Py.repeat_char "-"%char 40);;
  log (Py.ljust "Magic:" 25 +:+ "0x" +:+ Py.format_X (s_magic superblock));;
  log (Py.ljust "Filesystem Size:" 25 +:+ Py.str_int (bytes_used superblock) +:+ " bytes");;
  c ← lift (Compression_of (compression superblock));
  log (Py.ljust "Compression:" 25 +:+ Compression_name c);;
  log (Py.ljust "Block Size:" 25 +:+ Py.str_int (block_size superblock));;
  log (Py.ljust "Number of Inodes:" 25 +:+ Py.str_int (inodes superblock));;
  log (Py.ljust "Number of Fragments:" 25 +:+ Py.str_int (fragments superblock));;
  log (Py.ljust "Inode Table Start:" 25 +:+ "0x" +:+ Py.format_X (inode_table_start superblock));;
  log (Py.ljust "Directory Table Start:" 25 +:+ "0x" +:+ Py.format_X (directory_table_start superblock));;
  log (Py.ljust "Fragment Table Start:" 25 +:+ "0x" +:+ Py.format_X (fragment_table_start superblock));;
  log (Py.ljust "ID Table Start:" 25 +:+ "0x" +:+ Py.format_X (id_table_start superblock));;
  log (Py.ljust "xattr Table Start:" 25 +:+ "0x" +:+ Py.format_X (xattr_id_table_start superblock));;
  log (Py.repeat_char "-"%char 40).

(** One iteration of the loop of [extract_lzma_section]: [Some data] when
    the iteration executes [return], [None] when the loop goes on (an
    empty result, or an exception and [continue]). *)
Definition try_offset `{Codec} (firmware_data : bytes) (dictionary_size test_offset : Z)
    : M (option bytes) :=
  try_except
    (_log "Trying offset" (Py.str_int test_offset) info;;
     let lzma_data := Py.slice_from firmware_data test_offset in
     decompressed_data ← lift (lzma_raw_decompress dictionary_size lzma_data);
     if Py.truthy_bytes decompressed_data then
       _log "Successfully decompressed"
         (Py.str_int (Z.of_nat (length decompressed_data)) +:+ " bytes at offset "
          +:+ Py.str_int test_offset) success;;
       mret (Some decompressed_data)
     else mret None)
    (λ _, mret None).

Fixpoint try_offsets `{Codec} (firmware_data : bytes) (dictionary_size : Z)
    (offsets : list Z) : M (option bytes) :=
  match offsets with
  | [] => mret None
  | test_offset :: rest =>
      r ← try_offset firmware_data dictionary_size test_offset;
      match r with
      | Some data => mret (Some data)
      | None => try_offsets firmware_data dictionary_size rest
      end
  end.

(** The offsets the loop goes through, in order. *)
Definition test_offsets (offset : Z) : list Z :=
  [offset; offset - 1; offset + 1; offset - 13; offset + 13]%Z.

Definition extract_lzma_section `{Codec} (firmware_data : bytes)
    (offset dictionary_size uncompressed_size : Z) : M (option bytes) :=
  _log "Attempting to extract LZMA section"
    ("Offset: " +:+ Py.str_int offset +:+ ", Dictionary size: "
     +:+ Py.str_int dictionary_size +:+ ", Expected uncompressed size: "
     +:+ Py.str_int uncompressed_size) info;;
  r ← try_offsets firmware_data dictionary_size (test_offsets offset);
  match r with
  | Some data => mret (Some data)
  | None =>
      _log "Could not find valid LZMA data around specified offset" "" error;;
      mret None
  end.

Definition extract_squashfs_section (firmware_data : bytes) (offset size : Z) : M bytes :=
  _log "Extracting SquashFS section"
    ("Offset: " +:+ Py.str_int offset +:+ ", Size: " +:+ Py.str_int size) info;;
  mret (Py.slice firmware_data offset (offset + size)).

Definition _handle_symlink (item : Item) (target_path : Path) : M unit :=
  try_except
    (link_target ← lift (readlink item);
     _log "Creating symlink" (path item +:+ " -> " +:+ link_target) info;;
     b ← Path_exists target_path;
     (if b : bool then Path_unlink target_path else pass);;
     try_except
       (Path_symlink_to target_path link_target)
       (λ _, f ← open_w target_path;
             write f (Py.encode ("Symlink to: " +:+ link_target))))
    (λ e, _log ("Error handling symlink " +:+ path item +:+ ": " +:+ exn_str e) "" error).

(** The body of the loop of [extract_squashfs_contents]. *)
Definition extract_item (extract_dir : Path) (item : Item) : M unit :=
  let relative_path := Py.lstrip_slash (path item) in
  let target_path := truediv extract_dir relative_path in
  Path_mkdir (parent target_path) true true;;
  if negb (is_dir item) then
    _log "Extracting" (path item) success;;
    if is_file item then
      f ← open_w target_path;
      for_in (iter_bytes item) (λ block, write f block)
    else if is_symlink item then
      _handle_symlink item target_path
    else pass
  else pass.

(** The statements of [extract_squashfs_contents] from the start of its
    [try] block to the loop: they create the extraction directory, open the
    image and print its superblock. *)
Definition open_container `{Codec} (self : Firmware) (squashfs_path : Path) : M (Path * Image) :=
  _log "Attempting to extract SquashFS contents" (str squashfs_path) info;;
  let extract_dir := truediv (output_dir self) "squashfs_contents" in
  Path_mkdir extract_dir false true;;
  _log "Opening SquashFS image" "" info;;
  image ← SquashFsImage_from_file (str squashfs_path);
  _log "SquashFS filesystem information" "" info;;
  print_superblock_info (sblk image);;
  _log "Extracting files" "" info;;
  mret (extract_dir, image).

Definition extract_squashfs_contents `{Codec} (self : Firmware) (squashfs_path : Path) : M bool :=
  try_except
    ('(extract_dir, image) ← open_container self squashfs_path;
     for_in (image_iter image) (extract_item extract_dir);;
     _log "SquashFS contents extracted successfully" "" success;;
     mret true)
    (λ e, _log ("Error extracting SquashFS contents: " +:+ exn_str e) "" error;;
          mret false).

Definition extract_firmware `{Codec} (self : Firmware) : M bool :=
  _log "Starting extraction of firmware" (firmware_path self) info;;
  r ← try_except
        (firmware_data ← read_bytes (of_str (firmware_path self));
         _log "Successfully read firmware"
           (Py.str_int (Z.of_nat (length firmware_data)) +:+ " bytes") success;;
         mret (Some firmware_data))
        (λ e, _log ("Error reading firmware file: " +:+ exn_str e) "" error;;
              mret None);
  match r with
  | None => mret false
  | Some firmware_data =>
      lzma_data ← extract_lzma_section firmware_data 10264 8388608 8861280;
      match lzma_data with
      | Some data =>
          (if Py.truthy_bytes data then
             let lzma_path := truediv (output_dir self) "extracted_lzma.bin" in
             f ← open_w lzma_path;
             write f data;;
             _log "LZMA section saved" (str lzma_path) success
           else
             _log "LZMA extraction failed, continuing with SquashFS extraction" "" error)
      | None =>
          _log "LZMA extraction failed, continuing with SquashFS extraction" "" error
      end;;
      squashfs_data ← extract_squashfs_section firmware_data 2751522 5159718;
      let squashfs_path := truediv (output_dir self) "filesystem.squashfs" in
      f ← open_w squashfs_path;
      write f squashfs_data;;
      _log "SquashFS filesystem saved" (str squashfs_path) success;;
      extract_squashfs_contents self squashfs_path;;
      _log "Extraction process completed" "" success;;
      mret true
  end.

(** [main()] with [sys.argv = argv]; [os.path.exists] follows links like
    [Path.exists]. *)
Definition main `{Codec} (argv : list string) : M unit :=
  match argv with
  | [_; firmware_path] =>
      b ← Path_exists (of_str firmware_path);
      if b : bool then
        fw ← Firmware_init firmware_path;
        extract_firmware fw;;
        pass
      else print ("[!] Firmware file not found: " +:+ firmware_path)
  | _ => print "Usage: python main.py <bin>"
  end.

(* ================================================================= *)
(** ** Vocabulary of the specification *)

(** A candidate offset is accepted when the decoder returns without error
    and yields at least one byte. *)
Definition accepted `{Codec} (firmware_data : bytes) (dictionary_size test_offset : Z)
    (data : bytes) : Prop :=
  lzma_raw_decompress dictionary_size (Py.slice_from firmware_data test_offset) = Ret data
  ∧ data ≠ [].

(** A candidate offset is rejected when the decoder raises or yields
    nothing. *)
Definition rejected `{Codec} (firmware_data : bytes) (dictionary_size test_offset : Z)
    : Prop :=
  match lzma_raw_decompress dictionary_size (Py.slice_from firmware_data test_offset) with
  | Ret [] => True
  | Ret (_ :: _) => False
  | Raise _ => True
  end.

(** What one iteration of the search loop decides for a candidate. *)
Definition decode_at `{Codec} (firmware_data : bytes) (dictionary_size test_offset : Z)
    : option bytes :=
  match lzma_raw_decompress dictionary_size (Py.slice_from firmware_data test_offset) with
  | Ret (b :: data) => Some (b :: data)
  | _ => None
  end.

(** The line [extract_lzma_section] prints first; the only place where
    the expected uncompressed size is used. *)
Definition attempt_line (offset dictionary_size uncompressed_size : Z) : string :=
  "[*] Attempting to extract LZMA section: "
  +:+ ("Offset: " +:+ Py.str_int offset +:+ ", Dictionary size: "
       +:+ Py.str_int dictionary_size +:+ ", Expected uncompressed size: "
       +:+ Py.str_int uncompressed_size).

(** Two worlds that differ at most in what has been printed. *)
Definition same_files (w1 w2 : world) : Prop :=
  tree w1 = tree w2 ∧ cwd w1 = cwd w2
  ∧ symlinks_supported w1 = symlinks_supported w2.

(** The node a path leads to, links followed ([os.stat]). *)
Definition stat (w : world) (p : Path) : option node :=
  match resolve w true p with
  | Found _ n => Some n
  | _ => None
  end.

(** The node a path names, a final link not followed ([os.lstat]). *)
Definition lstat (w : world) (p : Path) : option node :=
  match resolve w false p with
  | Found _ n => Some n
  | _ => None
  end.

(** The extraction directory of [extract_squashfs_contents]. *)
Definition extract_dir_of (self : Firmware) : Path :=
  truediv (output_dir self) "squashfs_contents".

(** The path [extract_item] writes an entry to. *)
Definition target_path_of (extract_dir : Path) (item : Item) : Path :=
  truediv extract_dir (Py.lstrip_slash (path item)).

(** The line the handler of [extract_squashfs_contents] prints. *)
Definition contents_error_line (e : exn) : string :=
  "[!] Error extracting SquashFS contents: " +:+ exn_str e.

(** [open(p, mode)] would succeed: the path leads to a regular file or to
    a free name in an existing directory. *)
Definition writable (w : world) (p : Path) : Prop :=
  match resolve w true p with
  | Found _ (File _) => True
  | Missing _ => True
  | _ => False
  end.

(* ================================================================= *)
(** ** Sample codecs, images and hosts *)

(** A stand-in raw decoder: a stream is the byte [0x5d] followed by the
    payload, stored as it is. *)
Definition stored_decompress (dict_size : Z) (data : bytes) : outcome bytes :=
  match data with
  | x5d :: payload => Ret payload
  | _ => Raise LZMAError
  end.

(** A stand-in SquashFS reader that finds the image [img] in every file. *)
#[local] Instance sample_codec (img : outcome Image) : Codec := {|
  lzma_raw_decompress := stored_decompress;
  squashfs_parse := λ _, img
|}.

Definition sample_sblk : Superblock := {|
  s_magic := 0x73717368; bytes_used := 4096; compression := 2;
  block_size := 131072; inodes := 3; fragments := 0;
  inode_table_start := 96; directory_table_start := 200;
  fragment_table_start := 300; id_table_start := 400;
  xattr_id_table_start := 500
|}.

Definition file_item (p : string) (content : bytes) : Item := {|
  path := p; item_kind := Regular;
  iter_bytes := Generator [content] None;
  readlink := Raise (CodecError "not a symlink")
|}.


Definition symlink_item (p target : string) : Item := {|
  path := p; item_kind := SymbolicLink;
  iter_bytes := Generator [] (Some (CodecError "not a file"));
  readlink := Ret target
|}.

Definition sample_image (items : list Item) : outcome Image :=
  Ret {| sblk := sample_sblk; image_iter := Generator items None |}.

(** A host whose working directory [/work] holds the firmware [fw.bin]
    and the (empty) output directory. *)
Definition sample_host : world := {|
  tree := <[ ["work"; "extracted_firmware"] := Dir ]>
          (<[ ["work"; "fw.bin"] := File [x00; x01; x02] ]>
          (<[ ["work"] := Dir ]> ∅));
  cwd := ["work"];
  symlinks_supported := true;
  stdout := []
|}.

(** The same host once the container has been saved. *)
Definition unpack_host : world :=
  with_tree sample_host
    (<[ ["work"; "extracted_firmware"; "filesystem.squashfs"] := File [] ]>
       (tree sample_host)).

Definition container_path : Path := of_str "extracted_firmware/filesystem.squashfs".

(** A regular file whose content stream fails after its first block. *)
Definition corrupt_item (p : string) (first_block : bytes) : Item := {|
  path := p; item_kind := Regular;
  iter_bytes := Generator [first_block] (Some (CodecError "corrupt block"));
  readlink := Raise (CodecError "not a symlink")
|}.

(** Three regular files, the second with a corrupt content stream. *)
Definition three_files : list Item :=
  [file_item "/a.txt" [x61]; corrupt_item "/bad.bin" [x62]; file_item "/c.txt" [x63]].

(** The extraction root on the sample host, as a canonical location. *)
Definition sample_root : list string :=
  ["work"; "extracted_firmware"; "squashfs_contents"].


Definition sample_self : Firmware := {|
  firmware_path := "fw.bin";
  output_dir := of_str "extracted_firmware"
|}.

(* ================================================================= *)
(** ** Further vocabulary and samples *)

(** A statement whose outcome and whose effect on the files do not depend
    on what has been printed before. *)
Definition log_blind {A} (m : M A) : Prop :=
  ∀ w1 w2, same_files w1 w2 →
    (m w1).1 = (m w2).1 ∧ same_files (m w1).2 (m w2).2.

(** A superblock whose compression id is in no [Compression] member. *)
Definition unknown_sblk : Superblock := {|
  s_magic := 0x73717368; bytes_used := 4096; compression := 9;
  block_size := 131072; inodes := 3; fragments := 0;
  inode_table_start := 96; directory_table_start := 200;
  fragment_table_start := 300; id_table_start := 400;
  xattr_id_table_start := 500
|}.

(** A host on which a regular file has the name of the output directory. *)
Definition blocked_host : world := {|
  tree := <[ ["work"; "extracted_firmware"] := File [x00] ]>
          (<[ ["work"; "fw.bin"] := File [x00; x01; x02] ]>
          (<[ ["work"] := Dir ]> ∅));
  cwd := ["work"];
  symlinks_supported := true;
  stdout := []
|}.

(** A host that cannot create symbolic links. *)
Definition linkless_host : world := {|
  tree := <[ ["work"] := Dir ]> ∅;
  cwd := ["work"];
  symlinks_supported := false;
  stdout := []
|}.

(** Every directory of [w] is still a directory in [w'], and the working
    directory has not moved. *)
Definition keeps_dirs (w w' : world) : Prop :=
  cwd w' = cwd w
  ∧ ∀ loc, tree w !! loc = Some Dir → tree w' !! loc = Some Dir.

(** A statement that never removes or replaces a directory. *)
Definition dir_safe {A} (m : M A) : Prop := ∀ w, keeps_dirs w (m w).2.

(* ================================================================= *)
(** * Properties *)

(** ** Running statements *)

Lemma bind_run {A B} (m : M A) (f : A → M B) w :
  (m ≫= f) w = match m w with
               | (Ret a, w') => f a w'
               | (Raise e, w') => (Raise e, w')
               end.
Proof. reflexivity. Qed.

Lemma run_eta {A} (r : outcome A * world) (a : A) :
  r.1 = Ret a → r = (Ret a, r.2).
Proof. destruct r as [o w']. cbn [fst snd]. by intros ->. Qed.

Lemma run_eta_raise {A} (r : outcome A * world) (e : exn) :
  r.1 = Raise e → r = (Raise e, r.2).
Proof. destruct r as [o w']. cbn [fst snd]. by intros ->. Qed.

Lemma logged_nil w : logged w [] = w.
Proof. destruct w; unfold logged; simpl. by rewrite app_nil_r. Qed.

Lemma logged_logged w l1 l2 : logged (logged w l1) l2 = logged w (l1 ++ l2).
Proof. unfold logged; simpl. by rewrite app_assoc. Qed.

Lemma log_run title value lv w :
  ∃ line, _log title value lv w = (Ret tt, logged w [line]).
Proof. unfold _log, print. eauto. Qed.

Lemma same_files_logged w lines : same_files w (logged w lines).
Proof. done. Qed.

Lemma same_files_trans w1 w2 w3 :
  same_files w1 w2 → same_files w2 w3 → same_files w1 w3.
Proof. unfold same_files. intros (-> & -> & ->) (-> & -> & ->). done. Qed.

(** ** The offset search *)

Section locate.
Context `{Codec}.
Variables (firmware_data : bytes) (dictionary_size : Z).

Lemma decode_at_accepted c data :
  decode_at firmware_data dictionary_size c = Some data
  ↔ accepted firmware_data dictionary_size c data.
Proof.
  unfold decode_at, accepted.
  destruct (lzma_raw_decompress _ _) as [[|b d]|e]; split;
    try (intros [=]; subst; done); try (intros [[=] ?]; subst; done).
Qed.

Lemma decode_at_rejected c :
  decode_at firmware_data dictionary_size c = None
  ↔ rejected firmware_data dictionary_size c.
Proof.
  unfold decode_at, rejected.
  destruct (lzma_raw_decompress _ _) as [[|b d]|e]; split; done.
Qed.

Lemma accepted_not_rejected c data :
  accepted firmware_data dictionary_size c data →
  ¬ rejected firmware_data dictionary_size c.
Proof.
  intros Ha Hr. apply decode_at_accepted in Ha. apply decode_at_rejected in Hr.
  congruence.
Qed.

(** One iteration never raises, prints only, and decides as [decode_at]. *)
Lemma try_offset_run c :
  ∃ lines, ∀ w,
    try_offset firmware_data dictionary_size c w
    = (Ret (decode_at firmware_data dictionary_size c), logged w lines).
Proof.
  unfold try_offset, try_except, decode_at.
  destruct (lzma_raw_decompress dictionary_size (Py.slice_from firmware_data c))
    as [[|b d]|e] eqn:E;
    eexists; intros w; cbv [mbind M_bind mret M_ret lift _log print];
    cbn [Py.truthy_bytes]; rewrite ?logged_logged; reflexivity.
Qed.

(** The loop never raises, prints only, and returns the decision of the
    first candidate that has one. *)
Lemma try_offsets_run offsets :
  ∃ lines, ∀ w,
    try_offsets firmware_data dictionary_size offsets w
    = (Ret (head (omap (decode_at firmware_data dictionary_size) offsets)),
       logged w lines).
Proof.
  induction offsets as [|c rest [lines IH]].
  - exists []. intros w. rewrite logged_nil. reflexivity.
  - destruct (try_offset_run c) as [l1 H1]. cbn [try_offsets omap list_omap].
    destruct (decode_at firmware_data dictionary_size c) as [d|] eqn:E.
    + exists l1. intros w. rewrite bind_run, H1. reflexivity.
    + exists (l1 ++ lines). intros w. rewrite bind_run, H1, IH, logged_logged.
      reflexivity.
Qed.

Lemma head_omap_Some offsets data :
  head (omap (decode_at firmware_data dictionary_size) offsets) = Some data
  ↔ ∃ pre c post,
      offsets = pre ++ c :: post
      ∧ Forall (rejected firmware_data dictionary_size) pre
      ∧ accepted firmware_data dictionary_size c data.
Proof.
  induction offsets as [|c rest IH]; cbn [omap list_omap].
  - split; [done|]. intros (pre & c & post & Hl & _). by destruct pre.
  - destruct (decode_at firmware_data dictionary_size c) as [d|] eqn:E.
    + cbn [head]. split.
      * intros [= ->]. exists [], c, rest. split_and!; [done|constructor|].
        by apply decode_at_accepted.
      * intros (pre & c' & post & Hl & Hpre & Hacc).
        destruct pre as [|c0 pre]; simplify_eq/=.
        -- apply decode_at_accepted in Hacc. congruence.
        -- apply Forall_cons in Hpre as [Hr _].
           apply decode_at_rejected in Hr. congruence.
    + rewrite IH. split.
      * intros (pre & c' & post & -> & Hpre & Hacc).
        exists (c :: pre), c', post. split_and!; [done| |done].
        constructor; [by apply decode_at_rejected|done].
      * intros (pre & c' & post & Hl & Hpre & Hacc).
        destruct pre as [|c0 pre]; simplify_eq/=.
        -- apply decode_at_accepted in Hacc. congruence.
        -- apply Forall_cons in Hpre as [_ Hpre]. by exists pre, c', post.
Qed.


(** The whole search: it never raises and changes nothing but the log,
    and the size hint shows up in the first printed line only. *)
Lemma extract_lzma_section_run offset :
  ∃ lines, ∀ uncompressed_size w,
    extract_lzma_section firmware_data offset dictionary_size uncompressed_size w
    = (Ret (head (omap (decode_at firmware_data dictionary_size) (test_offsets offset))),
       logged w (attempt_line offset dictionary_size uncompressed_size :: lines)).
Proof.
  unfold extract_lzma_section.
  destruct (try_offsets_run (test_offsets offset)) as [l1 H1].
  destruct (head _) as [d|] eqn:E.
  - exists l1. intros u w. rewrite bind_run. unfold _log at 1, print.
    cbn [Py.truthy_str String.append]. rewrite bind_run, H1, logged_logged. reflexivity.
  - eexists (l1 ++ [_]). intros u w. rewrite bind_run. unfold _log at 1, print.
    cbn [Py.truthy_str String.append]. rewrite bind_run, H1.
    cbv [mbind M_bind mret M_ret _log print]. cbn [Py.truthy_str].
    rewrite !logged_logged. reflexivity.
Qed.

End locate.

(** C3: the search goes through the offsets nominal, -1, +1, -13, +13 in
    this order and returns the output of the first candidate whose decoding
    neither raises nor is empty; every candidate before it was rejected.  In
    particular, when the nominal offset decodes, its output is returned
    whatever the later candidates would give. *)
Theorem C3_locate_first_accepted `{Codec} (firmware_data : bytes)
    (offset dictionary_size uncompressed_size : Z) (w : world) :
  let result :=
    (extract_lzma_section firmware_data offset dictionary_size uncompressed_size w).1 in
  test_offsets offset = [offset; offset - 1; offset + 1; offset - 13; offset + 13]%Z
  ∧ (∀ data, result = Ret (Some data) ↔
       ∃ pre c post,
         test_offsets offset = pre ++ c :: post
         ∧ Forall (rejected firmware_data dictionary_size) pre
         ∧ accepted firmware_data dictionary_size c data)
  ∧ (∀ data, accepted firmware_data dictionary_size offset data →
       result = Ret (Some data)).
Proof.
  intros result. subst result.
  destruct (extract_lzma_section_run firmware_data dictionary_size offset) as [lines Hrun].
  rewrite Hrun. cbn [fst]. split_and!.
  - reflexivity.
  - intros data. rewrite <- head_omap_Some. split; [by intros [= ?]|by intros ->].
  - intros data Hacc. f_equal. apply head_omap_Some.
    exists [], offset, [offset - 1; offset + 1; offset - 13; offset + 13]%Z.
    split_and!; [done|constructor|done].
Qed.

(** A buffer that decodes at the nominal offset 2 and at offset 3: the
    output for offset 2 is returned. *)
Lemma C3_locate_first_accepted_witness :
  (@extract_lzma_section (sample_codec (Raise LZMAError))
     [x00; x00; x5d; x5d; x41; x42] 2 4096 3 sample_host).1
  = Ret (Some [x5d; x41; x42]).
Proof.
  apply (@C3_locate_first_accepted (sample_codec (Raise LZMAError))
           [x00; x00; x5d; x5d; x41; x42] 2 4096 3 sample_host).
  split; [reflexivity|discriminate].
Defined.



(** C9: the expected uncompressed size is printed in the first line and
    used nowhere else: two runs that differ only in this hint return the same
    result and leave the same files, and their logs differ in that one line.
    The first accepted candidate is returned whatever its length. *)
Theorem C9_size_hint_only_logged `{Codec} (firmware_data : bytes)
    (offset dictionary_size : Z) (hint1 hint2 : Z) (w : world) :
  let run1 := extract_lzma_section firmware_data offset dictionary_size hint1 w in
  let run2 := extract_lzma_section firmware_data offset dictionary_size hint2 w in
  run1.1 = run2.1
  ∧ same_files run1.2 run2.2
  ∧ (∃ lines,
       stdout run1.2
       = stdout w ++ attempt_line offset dictionary_size hint1 :: lines
       ∧ stdout run2.2
         = stdout w ++ attempt_line offset dictionary_size hint2 :: lines)
  ∧ (∀ pre c post data,
       test_offsets offset = pre ++ c :: post →
       Forall (rejected firmware_data dictionary_size) pre →
       accepted firmware_data dictionary_size c data →
       run1.1 = Ret (Some data)).
Proof.
  intros run1 run2. subst run1 run2.
  destruct (extract_lzma_section_run firmware_data dictionary_size offset) as [lines Hrun].
  rewrite !Hrun. cbn [fst snd]. split_and!.
  - reflexivity.
  - done.
  - exists lines. done.
  - intros pre c post data Hl Hpre Hacc. f_equal. apply head_omap_Some.
    by exists pre, c, post.
Qed.

(** The payload found at the nominal offset has 3 bytes; it is returned
    with the hint 3 and with the hint 1000 alike. *)
Lemma C9_size_hint_only_logged_witness :
  (@extract_lzma_section (sample_codec (Raise LZMAError))
     [x00; x5d; x41; x42; x43] 1 4096 1000 sample_host).1
  = Ret (Some [x41; x42; x43])
  ∧ (@extract_lzma_section (sample_codec (Raise LZMAError))
       [x00; x5d; x41; x42; x43] 1 4096 1000 sample_host).1
    = (@extract_lzma_section (sample_codec (Raise LZMAError))
         [x00; x5d; x41; x42; x43] 1 4096 3 sample_host).1.
Proof.
  pose proof (@C9_size_hint_only_logged (sample_codec (Raise LZMAError))
                [x00; x5d; x41; x42; x43] 1 4096 1000 3 sample_host)
    as (Heq & _ & _ & Hfirst).
  split; [|exact Heq].
  apply (Hfirst [] 1%Z [0; 2; -12; 14]%Z [x41; x42; x43]).
  - reflexivity.
  - constructor.
  - split; [reflexivity|discriminate].
Defined.

(** ** The segment extractor *)

Lemma adjust_index_in_range len i :
  (0 ≤ i ≤ len)%Z → Py.adjust_index len i = i.
Proof.
  intros Hi. unfold Py.adjust_index.
  destruct (Z.ltb_spec i 0); [lia|].
  destruct (Z.leb_spec len i); lia.
Qed.

Lemma adjust_index_beyond len i :
  (0 ≤ len ≤ i)%Z → Py.adjust_index len i = len.
Proof.
  intros Hi. unfold Py.adjust_index.
  destruct (Z.ltb_spec i 0); [lia|].
  destruct (Z.leb_spec len i); lia.
Qed.

Lemma adjust_index_bounds len i :
  (0 ≤ len)%Z → (0 ≤ Py.adjust_index len i ≤ len)%Z.
Proof.
  intros Hlen. unfold Py.adjust_index.
  destruct (Z.ltb_spec i 0).
  - destruct (Z.ltb_spec (i + len) 0); lia.
  - destruct (Z.leb_spec len i); lia.
Qed.

(** C4: the extractor returns the Python slice [buffer[offset:offset+size]]
    and never fails.  For a range inside the buffer this is the [size] bytes
    found from position [offset] on; when [offset+size] goes beyond the end
    it is the shorter slice from [offset] to the end of the buffer. *)
Theorem C4_extract_is_slice (buffer : bytes) (offset size : Z) (w : world) :
  let result := (extract_squashfs_section buffer offset size w).1 in
  result = Ret (Py.slice buffer offset (offset + size))
  ∧ ((0 ≤ offset)%Z → (0 ≤ size)%Z →
     (offset + size ≤ Z.of_nat (length buffer))%Z →
       result = Ret (take (Z.to_nat size) (drop (Z.to_nat offset) buffer))
       ∧ length (take (Z.to_nat size) (drop (Z.to_nat offset) buffer)) = Z.to_nat size
       ∧ ∀ i, (i < Z.to_nat size)%nat →
           take (Z.to_nat size) (drop (Z.to_nat offset) buffer) !! i
           = buffer !! (Z.to_nat offset + i)%nat)
  ∧ ((Z.of_nat (length buffer) < offset + size)%Z →
       result = Ret (Py.slice_from buffer offset)).
Proof.
  intros result. subst result.
  unfold extract_squashfs_section. rewrite bind_run.
  unfold _log, print. cbn [mret M_ret fst]. split_and!.
  - reflexivity.
  - intros Ho Hs Hlen. unfold Py.slice.
    rewrite !adjust_index_in_range by lia.
    replace (offset + size - offset)%Z with size by lia. split_and!.
    + reflexivity.
    + rewrite length_take, length_drop. lia.
    + intros i Hi. rewrite lookup_take_lt by done. by rewrite lookup_drop.
  - intros Hlen. unfold Py.slice, Py.slice_from. f_equal.
    rewrite (adjust_index_beyond _ (offset + size)) by lia.
    apply take_ge. rewrite length_drop.
    pose proof (adjust_index_bounds (Z.of_nat (length buffer)) offset). lia.
Qed.

Lemma C4_extract_is_slice_witness :
  (extract_squashfs_section [x00; x01; x02; x03; x04] 1 3 sample_host).1
  = Ret [x01; x02; x03]
  ∧ (extract_squashfs_section [x00; x01; x02; x03; x04] 3 7 sample_host).1
    = Ret [x03; x04].
Proof.
  split.
  - apply (C4_extract_is_slice [x00; x01; x02; x03; x04] 1 3 sample_host);
      simpl; lia.
  - apply (C4_extract_is_slice [x00; x01; x02; x03; x04] 3 7 sample_host);
      simpl; lia.
Defined.


(** ** Path resolution *)

Lemma walk_nil fuel t follow cur : walk fuel t follow cur [] = Found cur Dir.
Proof. destruct fuel; reflexivity. Qed.

Lemma walk_cons fuel t follow cur c rest :
  walk fuel t follow cur (c :: rest) =
  if decide (c = "..") then walk fuel t follow (removelast cur) rest
  else
    match t !! (cur ++ [c]) with
    | None => match rest with [] => Missing (cur ++ [c]) | _ => Failed ENOENT end
    | Some Dir => walk fuel t follow (cur ++ [c]) rest
    | Some (File b) =>
        match rest with [] => Found (cur ++ [c]) (File b) | _ => Failed ENOTDIR end
    | Some (Symlink target) =>
        if bool_decide (rest = []) && negb follow
        then Found (cur ++ [c]) (Symlink target)
        else
          match fuel with
          | O => Failed ELOOP
          | S fuel' =>
              if decide (target = EmptyString) then Failed ENOENT
              else walk fuel' t follow
                     (if is_absolute target then [] else cur)
                     (parse_parts target ++ rest)
          end
    end.
Proof. destruct fuel; reflexivity. Qed.

(** Induction along a resolution: on the number of links that may still be
    followed, then on the components left. *)
Ltac walk_induction fuel todo cur IHfuel IHtodo :=
  induction fuel as [fuel IHfuel] using lt_wf_ind;
  intros cur todo; revert cur;
  induction todo as [|c rest IHtodo]; intros cur;
  [rewrite !walk_nil | rewrite !walk_cons].

(** A free name reported by a resolution is free indeed. *)
Lemma walk_Missing_free fuel t follow cur todo loc :
  walk fuel t follow cur todo = Missing loc → t !! loc = None.
Proof.
  revert cur todo. walk_induction fuel todo cur IHf IHt; [done|].
  case_decide; [by apply IHt|].
  destruct (t !! (cur ++ [c])) as [[|b|target]|] eqn:E.
  - apply IHt.
  - by destruct rest.
  - destruct (bool_decide (rest = []) && negb follow); [done|].
    destruct fuel as [|fuel']; [done|]. case_decide; [done|].
    apply IHf. lia.
  - destruct rest; [|done]. by intros [= <-].
Qed.

(** An existing node reported by a resolution is in the tree, unless it is
    the directory the resolution ended in without a last lookup. *)
Lemma walk_Found_node fuel t follow cur todo loc n :
  walk fuel t follow cur todo = Found loc n → n = Dir ∨ t !! loc = Some n.
Proof.
  revert cur todo. walk_induction fuel todo cur IHf IHt.
  { intros [= <- <-]. by left. }
  case_decide; [by apply IHt|].
  destruct (t !! (cur ++ [c])) as [[|b|target]|] eqn:E.
  - apply IHt.
  - destruct rest; [|done]. intros [= <- <-]. by right.
  - destruct (bool_decide (rest = []) && negb follow).
    { intros [= <- <-]. by right. }
    destruct fuel as [|fuel']; [done|]. case_decide; [done|].
    apply IHf. lia.
  - by destruct rest.
Qed.

(** What exists with links followed exists without following the last one. *)
Lemma walk_follow_Found fuel t cur todo loc n :
  walk fuel t true cur todo = Found loc n →
  ∃ loc' n', walk fuel t false cur todo = Found loc' n'.
Proof.
  revert cur todo. walk_induction fuel todo cur IHf IHt; [eauto|].
  case_decide; [by apply IHt|].
  destruct (t !! (cur ++ [c])) as [[|b|target]|] eqn:E.
  - apply IHt.
  - destruct rest; [eauto|done].
  - cbn [negb]. rewrite andb_false_r, andb_true_r. case_bool_decide; [eauto|].
    destruct fuel as [|fuel']; [done|]. case_decide; [done|].
    apply IHf. lia.
  - by destruct rest.
Qed.

(** Creating a directory at a free name makes the path lead to it. *)
Lemma walk_insert_Dir fuel t cur todo loc follow :
  walk fuel t false cur todo = Missing loc →
  walk fuel (<[loc := Dir]> t) follow cur todo = Found loc Dir.
Proof.
  intros Hw. pose proof (walk_Missing_free _ _ _ _ _ _ Hw) as Hfree.
  revert cur todo Hw. walk_induction fuel todo cur IHf IHt; [done|].
  case_decide; [by apply IHt|].
  destruct (t !! (cur ++ [c])) as [[|b|target]|] eqn:E.
  - intros Hw. rewrite lookup_insert_ne by congruence. rewrite E. by apply IHt.
  - by destruct rest.
  - cbn [negb]. rewrite andb_true_r. case_bool_decide as Hrest; [done|].
    destruct fuel as [|fuel']; [done|]. case_decide; [done|].
    intros Hw. rewrite lookup_insert_ne by congruence. rewrite E.
    cbn [andb]. rewrite decide_False by done. apply IHf; [lia|done].
  - destruct rest; [|done]. intros [= <-].
    rewrite lookup_insert_eq. apply walk_nil.
Qed.

(** Writing a regular file, at a free name or over a regular file, keeps
    every resolution that succeeded: only the content found there changes. *)
Lemma walk_insert_File fuel t follow cur todo loc c' :
  (t !! loc = None ∨ ∃ b, t !! loc = Some (File b)) →
  match walk fuel t follow cur todo with
  | Found l (File b) =>
      walk fuel (<[loc := File c']> t) follow cur todo
      = Found l (File (if decide (l = loc) then c' else b))
  | Found l n => walk fuel (<[loc := File c']> t) follow cur todo = Found l n
  | Missing l =>
      walk fuel (<[loc := File c']> t) follow cur todo
      = if decide (l = loc) then Found l (File c') else Missing l
  | Failed _ => True
  end.
Proof.
  intros Hloc.
  revert cur todo. walk_induction fuel todo cur IHf IHt; [done|].
  case_decide; [by apply IHt|].
  destruct (decide (cur ++ [c] = loc)) as [->|Hne].
  - rewrite lookup_insert_eq.
    destruct Hloc as [->|[b ->]]; destruct rest; try done.
    + by rewrite decide_True.
    + by rewrite decide_True.
  - rewrite lookup_insert_ne by done.
    destruct (t !! (cur ++ [c])) as [[|b|target]|] eqn:E.
    + apply IHt.
    + destruct rest; [|done]. by rewrite decide_False.
    + destruct (bool_decide (rest = []) && negb follow); [done|].
      destruct fuel as [|fuel']; [done|]. case_decide; [done|].
      apply IHf. lia.
    + destruct rest; [|done]. by rewrite decide_False.
Qed.

(** ** System calls *)

Lemma Path_is_dir_true p w : stat w p = Some Dir → Path_is_dir p w = (Ret true, w).
Proof.
  unfold stat, Path_is_dir. destruct (resolve w true p) as [loc [| |]| |]; done.
Qed.

Lemma Path_is_dir_inv p w b w' :
  Path_is_dir p w = (Ret b, w') → w' = w ∧ (b = true → stat w p = Some Dir).
Proof.
  unfold stat, Path_is_dir.
  destruct (resolve w true p) as [loc [| |]| |]; intros [= <- <-]; done.
Qed.

Lemma os_mkdir_existing p w :
  stat w p = Some Dir → os_mkdir p w = (Raise (OSError EEXIST), w).
Proof.
  unfold stat, os_mkdir, resolve.
  destruct (walk _ _ true _ _) as [loc n| |] eqn:E; [|done..]. intros _.
  apply walk_follow_Found in E as (loc' & n' & ->). done.
Qed.

Lemma os_mkdir_inv p w r w' :
  os_mkdir p w = (r, w') →
  match r with
  | Ret _ => stat w' p = Some Dir
  | Raise _ => w' = w
  end.
Proof.
  unfold os_mkdir, stat, resolve.
  destruct (walk _ _ false _ _) as [loc n|loc|e] eqn:E; intros [= <- <-]; [done| |done].
  cbn [with_tree tree cwd]. by rewrite (walk_insert_Dir _ _ _ _ _ true E).
Qed.

Lemma mkdir_except_OSError_inv p exist_ok e w w' :
  mkdir_except_OSError p exist_ok e w = (Ret tt, w') →
  w' = w ∧ stat w p = Some Dir.
Proof.
  unfold mkdir_except_OSError. destruct exist_ok; cbn [negb]; [|done].
  rewrite bind_run. destruct (Path_is_dir p w) as [[b|e'] w1] eqn:E; [|done].
  apply Path_is_dir_inv in E as [-> Hb]. destruct b; [|done].
  intros [= <-]. auto.
Qed.

Lemma mkdir_plain_post p exist_ok w w' :
  mkdir_plain p exist_ok w = (Ret tt, w') → stat w' p = Some Dir.
Proof.
  unfold mkdir_plain, try_except.
  destruct (os_mkdir p w) as [[[]|e] w1] eqn:E; apply os_mkdir_inv in E.
  - by intros [= <-].
  - subst w1. intros Hh.
    assert (mkdir_except_OSError p exist_ok e w = (Ret tt, w')) as Hx.
    { destruct e as [[]| | |]; done. }
    by apply mkdir_except_OSError_inv in Hx as [-> ?].
Qed.

(** [mkdir] on a path that already leads to a directory changes nothing. *)
Lemma mkdir_rec_existing n p parents w :
  stat w p = Some Dir → mkdir_rec n p parents true w = (Ret tt, w).
Proof.
  intros Hdir. destruct n; cbn [mkdir_rec]; unfold try_except;
    rewrite (os_mkdir_existing _ _ Hdir); unfold mkdir_except_OSError;
    cbn [negb]; rewrite bind_run, (Path_is_dir_true _ _ Hdir); done.
Qed.

(** After a successful [mkdir] the path leads to a directory. *)
Lemma mkdir_rec_post n p parents exist_ok w w' :
  mkdir_rec n p parents exist_ok w = (Ret tt, w') → stat w' p = Some Dir.
Proof.
  revert p parents exist_ok w w'.
  induction n as [|n IH]; intros p parents exist_ok w w'; cbn [mkdir_rec];
    unfold try_except;
    (destruct (os_mkdir p w) as [[[]|e] w1] eqn:E; apply os_mkdir_inv in E;
       [by intros [= <-]|subst w1]).
  - destruct e as [[]| | |];
      try (by intros [-> ?]%mkdir_except_OSError_inv).
    by destruct (negb parents || bool_decide (parts (parent p) = parts p)).
  - destruct e as [[]| | |];
      try (by intros [-> ?]%mkdir_except_OSError_inv).
    destruct (negb parents || bool_decide (parts (parent p) = parts p)); [done|].
    rewrite bind_run.
    destruct (mkdir_rec n (parent p) true true w) as [[[]|e] w1]; [|done].
    apply mkdir_plain_post.
Qed.

Lemma Path_mkdir_existing p parents w :
  stat w p = Some Dir → Path_mkdir p parents true w = (Ret tt, w).
Proof. apply mkdir_rec_existing. Qed.

Lemma Path_mkdir_post p parents exist_ok w w' :
  Path_mkdir p parents exist_ok w = (Ret tt, w') → stat w' p = Some Dir.
Proof. apply mkdir_rec_post. Qed.

(** ** The materializer *)

Lemma for_each_app {A} (l1 l2 : list A) body w :
  for_each (l1 ++ l2) body w =
  match for_each l1 body w with
  | (Ret _, w1) => for_each l2 body w1
  | (Raise e, w1) => (Raise e, w1)
  end.
Proof.
  revert w. induction l1 as [|x l1 IH]; intros w; [done|].
  cbn [for_each app]. rewrite !bind_run.
  destruct (body x w) as [[[]|e] w1]; [apply IH|done].
Qed.

Lemma extract_squashfs_contents_unfold `{Codec} self squashfs_path w :
  extract_squashfs_contents self squashfs_path w =
  match open_container self squashfs_path w with
  | (Ret (extract_dir, image), w0) =>
      match for_each (yields (image_iter image)) (extract_item extract_dir) w0 with
      | (Ret _, w1) =>
          match fails (image_iter image) with
          | None => (Ret true, logged w1 ["[+] SquashFS contents extracted successfully"])
          | Some e => (Ret false, logged w1 [contents_error_line e])
          end
      | (Raise e, w1) => (Ret false, logged w1 [contents_error_line e])
      end
  | (Raise e, w0) => (Ret false, logged w0 [contents_error_line e])
  end.
Proof.
  unfold extract_squashfs_contents, try_except, for_in. rewrite bind_run.
  destruct (open_container self squashfs_path w) as [[[extract_dir image]|e] w0];
    [|reflexivity].
  rewrite !bind_run.
  destruct (for_each _ _ w0) as [[[]|e] w1]; [|reflexivity].
  destruct (fails (image_iter image)); reflexivity.
Qed.

(** The symlink handler always returns. *)
Lemma handle_symlink_returns item target_path w :
  ∃ w', _handle_symlink item target_path w = (Ret tt, w').
Proof.
  unfold _handle_symlink, try_except.
  match goal with |- context [match ?m w with (_, _) => _ end] =>
    destruct (m w) as [[[]|e] w1] end.
  - eauto.
  - unfold _log, print. eauto.
Qed.

Lemma extract_item_symlink extract_dir item w :
  is_symlink item = true →
  extract_item extract_dir item w =
  match Path_mkdir (parent (target_path_of extract_dir item)) true true w with
  | (Ret _, w1) =>
      match _log "Extracting" (path item) success w1 with
      | (Ret _, w2) => _handle_symlink item (target_path_of extract_dir item) w2
      | (Raise e, w2) => (Raise e, w2)
      end
  | (Raise e, w1) => (Raise e, w1)
  end.
Proof.
  unfold extract_item, is_symlink, is_dir, is_file, target_path_of.
  destruct (item_kind item); done.
Qed.

Lemma extract_item_other extract_dir item w :
  item_kind item = Other →
  extract_item extract_dir item w =
  match Path_mkdir (parent (target_path_of extract_dir item)) true true w with
  | (Ret _, w1) => _log "Extracting" (path item) success w1
  | (Raise e, w1) => (Raise e, w1)
  end.
Proof.
  unfold extract_item, is_symlink, is_dir, is_file, target_path_of.
  intros ->. cbn [negb]. rewrite bind_run.
  destruct (Path_mkdir _ _ _ w) as [[[]|e] w1]; [|done].
  rewrite bind_run. unfold _log, print, pass. reflexivity.
Qed.


(** The unpacking never raises: its handler catches everything. *)
Lemma extract_squashfs_contents_returns `{Codec} self squashfs_path w :
  ∃ b w', extract_squashfs_contents self squashfs_path w = (Ret b, w').
Proof.
  rewrite extract_squashfs_contents_unfold.
  destruct (open_container self squashfs_path w) as [[[extract_dir image]|e] w0]; [|eauto].
  destruct (for_each _ _ w0) as [[[]|e] w1]; [|eauto].
  destruct (fails (image_iter image)); eauto.
Qed.

(** C1 (amended): the unpacking never raises, but it is not per entry that
    failures are contained.  An exception raised while an entry is processed
    (creating its parent directories, opening or writing its file, reading
    its content stream) ends the traversal at that entry: what was written
    up to that point stays, the entries after it are not processed, and the
    run logs the error and returns [False].  Only failures inside the symlink
    handler are caught per entry, and an entry of another kind is skipped
    without error. *)
Theorem C1_failure_ends_traversal `{Codec} (self : Firmware) (squashfs_path : Path)
    (w : world) :
  (∃ b w', extract_squashfs_contents self squashfs_path w = (Ret b, w'))
  ∧ (∀ extract_dir image w0 pre k post w1 e w2,
       open_container self squashfs_path w = (Ret (extract_dir, image), w0) →
       yields (image_iter image) = pre ++ k :: post →
       for_each pre (extract_item extract_dir) w0 = (Ret tt, w1) →
       extract_item extract_dir k w1 = (Raise e, w2) →
       extract_squashfs_contents self squashfs_path w
       = (Ret false, logged w2 [contents_error_line e]))
  ∧ (∀ extract_dir item w1 w2,
       is_symlink item = true →
       Path_mkdir (parent (target_path_of extract_dir item)) true true w1 = (Ret tt, w2) →
       ∃ w3, extract_item extract_dir item w1 = (Ret tt, w3))
  ∧ (∀ extract_dir item w1 w2,
       item_kind item = Other →
       Path_mkdir (parent (target_path_of extract_dir item)) true true w1 = (Ret tt, w2) →
       ∃ line, extract_item extract_dir item w1 = (Ret tt, logged w2 [line])).
Proof.
  split_and!.
  - apply extract_squashfs_contents_returns.
  - intros extract_dir image w0 pre k post w1 e w2 Hopen Hitems Hpre Hk.
    rewrite extract_squashfs_contents_unfold, Hopen, Hitems, for_each_app, Hpre.
    cbn [for_each]. rewrite bind_run, Hk. reflexivity.
  - intros extract_dir item w1 w2 Hkind Hmk.
    rewrite extract_item_symlink, Hmk by done. unfold _log at 1, print.
    apply handle_symlink_returns.
  - intros extract_dir item w1 w2 Hkind Hmk.
    rewrite extract_item_other, Hmk by done. unfold _log, print. eauto.
Qed.

(** Three regular files, the second with a corrupt content stream: the run
    stops there and returns [False]. *)
Lemma C1_failure_ends_traversal_witness :
  let codec := sample_codec (sample_image three_files) in
  let extract_dir := extract_dir_of sample_self in
  let w0 := (@open_container codec sample_self container_path unpack_host).2 in
  let w1 := (for_each [file_item "/a.txt" [x61]] (extract_item extract_dir) w0).2 in
  let w2 := (extract_item extract_dir (corrupt_item "/bad.bin" [x62]) w1).2 in
  @extract_squashfs_contents codec sample_self container_path unpack_host
  = (Ret false, logged w2 [contents_error_line (CodecError "corrupt block")]).
Proof.
  intros codec extract_dir w0 w1 w2.
  apply (proj1 (proj2 (@C1_failure_ends_traversal codec
            sample_self container_path unpack_host))
           extract_dir
           {| sblk := sample_sblk; image_iter := Generator three_files None |}
           w0 [file_item "/a.txt" [x61]] (corrupt_item "/bad.bin" [x62])
           [file_item "/c.txt" [x63]] w1 (CodecError "corrupt block") w2).
  - refine (run_eta _ _ _). vm_compute. reflexivity.
  - reflexivity.
  - refine (run_eta _ _ _). vm_compute. reflexivity.
  - refine (run_eta_raise _ _ _). vm_compute. reflexivity.
Defined.

(** The claim as stated fails: of three regular files the second has a
    corrupt content stream, and the third, which is sound, is never written;
    the run returns [False]. *)
Lemma C1_counterexample :
  let run :=
    @extract_squashfs_contents (sample_codec (sample_image three_files))
      sample_self container_path unpack_host in
  run.1 = Ret false
  ∧ tree run.2 !! (sample_root ++ ["a.txt"]) = Some (File [x61])
  ∧ tree run.2 !! (sample_root ++ ["c.txt"]) = None
  ∧ stat run.2 (target_path_of (extract_dir_of sample_self) (file_item "/c.txt" [x63]))
    ≠ Some (File [x63]).
Proof. vm_compute. split_and!; done. Qed.

(** C8: the symlink handler never raises.  Whatever happens while the link
    target is read, an existing node is removed, the link is created or the
    placeholder is written, the call returns normally; an exception that
    leaves the inner fallback is caught by the outer handler, which prints one
    error line. *)
Theorem C8_handle_symlink_never_raises (item : Item) (target_path : Path) (w : world) :
  (∃ w', _handle_symlink item target_path w = (Ret tt, w'))
  ∧ (∀ e, readlink item = Raise e →
       _handle_symlink item target_path w
       = (Ret tt, logged w ["[!] Error handling symlink " +:+ path item +:+ ": "
                            +:+ exn_str e])).
Proof.
  split; [apply handle_symlink_returns|].
  intros e He. unfold _handle_symlink, try_except. rewrite bind_run.
  unfold lift. rewrite He. reflexivity.
Qed.

(** An entry whose link target cannot be read: the handler prints the
    error and returns. *)
Lemma C8_handle_symlink_never_raises_witness :
  _handle_symlink (file_item "/f" []) (of_str "f") sample_host
  = (Ret tt, logged sample_host ["[!] Error handling symlink /f: not a symlink"]).
Proof.
  apply (proj2 (C8_handle_symlink_never_raises (file_item "/f" []) (of_str "f")
                  sample_host) (CodecError "not a symlink")).
  reflexivity.
Defined.

(** ** Target paths *)

Lemma is_absolute_lstrip s : is_absolute (Py.lstrip_slash s) = false.
Proof.
  induction s as [|c rest IH]; [done|]. cbn [Py.lstrip_slash].
  destruct (Ascii.eqb c "/") eqn:E; [done|]. cbn [is_absolute]. done.
Qed.

Lemma parse_parts_lstrip s : parse_parts (Py.lstrip_slash s) = parse_parts s.
Proof.
  induction s as [|c rest IH]; [done|]. cbn [Py.lstrip_slash].
  destruct (Ascii.eqb c "/") eqn:E; [|done].
  rewrite IH. unfold parse_parts. cbn [split_slash]. rewrite E.
  rewrite filter_cons_False; [done|]. intros [? _]. done.
Qed.

(** C2 (amended): the entry path is not checked for parent-directory
    segments.  All leading slashes are stripped, so the target path is never
    absolute: it is the extraction directory followed by the components of
    the entry path as they are, [..] included; such an entry is processed
    like any other and may create nodes outside the extraction directory.
    Only an entry path without [..] yields a target path that lies, as
    written, below the extraction directory. *)
Theorem C2_target_path_verbatim (extract_dir : Path) (item : Item) :
  let target_path := target_path_of extract_dir item in
  anchored target_path = anchored extract_dir
  ∧ parts target_path = parts extract_dir ++ parse_parts (path item)
  ∧ (∀ w, is_file item = true →
       extract_item extract_dir item w
       = (Path_mkdir (parent target_path) true true;;
          _log "Extracting" (path item) success;;
          f ← open_w target_path;
          for_in (iter_bytes item) (λ block, write f block)) w).
Proof.
  unfold target_path_of, truediv. rewrite is_absolute_lstrip, parse_parts_lstrip.
  cbn [anchored parts]. split_and!; [done..|].
  intros w Hfile. unfold extract_item, is_file, is_dir in *.
  destruct (item_kind item); try done.
  cbn [negb]. unfold truediv. rewrite is_absolute_lstrip, parse_parts_lstrip.
  reflexivity.
Qed.

Lemma C2_target_path_verbatim_witness :
  parts (target_path_of (extract_dir_of sample_self)
           (file_item "../../etc/passwd" [x72]))
  = ["extracted_firmware"; "squashfs_contents"; ".."; ".."; "etc"; "passwd"].
Proof.
  apply (C2_target_path_verbatim (extract_dir_of sample_self)
           (file_item "../../etc/passwd" [x72])).
Defined.

(** The claim as stated fails: the entry [../../etc/passwd] is neither
    reported nor skipped.  The run succeeds without an error line and the
    file is created at [/work/etc/passwd], outside the extraction directory
    [/work/extracted_firmware/squashfs_contents]. *)
Lemma C2_counterexample :
  let run :=
    @extract_squashfs_contents
      (sample_codec (sample_image [file_item "../../etc/passwd" [x72]]))
      sample_self container_path unpack_host in
  run.1 = Ret true
  ∧ tree unpack_host !! ["work"; "etc"; "passwd"] = None
  ∧ tree run.2 !! ["work"; "etc"; "passwd"] = Some (File [x72])
  ∧ ¬ sample_root `prefix_of` ["work"; "etc"; "passwd"]
  ∧ resolve unpack_host true (extract_dir_of sample_self) = Missing sample_root
  ∧ resolve run.2 true (extract_dir_of sample_self) = Found sample_root Dir.
Proof.
  vm_compute. split_and!; try done.
  intros [k Hk]. discriminate Hk.
Qed.

(** ** Directory entries *)




(** ** Symbolic links met again *)

(** C7 (the code departs from the claim): the image has one entry, the
    link [/l -> missing.txt] to a file it does not contain, and is unpacked
    twice into the same output directory.  The first run creates the link,
    which dangles.  On the second run [Path.exists] follows the link and
    answers [False], so the old link is not removed; creating the link
    fails with [FileExistsError]; the fallback then opens the path for
    writing, which follows the old link and creates the file [missing.txt]
    holding the placeholder text.  The link is still there, and a file that
    is in no image entry has appeared. *)
Theorem C7_dangling_link_not_removed :
  let item := symlink_item "/l" "missing.txt" in
  let codec := sample_codec (sample_image [item]) in
  let target_path := target_path_of (extract_dir_of sample_self) item in
  let first_run :=
    @extract_squashfs_contents codec sample_self container_path unpack_host in
  let second_run :=
    @extract_squashfs_contents codec sample_self container_path first_run.2 in
  first_run.1 = Ret true
  ∧ lstat first_run.2 target_path = Some (Symlink "missing.txt")
  ∧ tree first_run.2 !! (sample_root ++ ["missing.txt"]) = None
  ∧ (Path_exists target_path first_run.2).1 = Ret false
  ∧ (Path_symlink_to target_path "missing.txt" first_run.2).1 = Raise (OSError EEXIST)
  ∧ second_run.1 = Ret true
  ∧ lstat second_run.2 target_path = Some (Symlink "missing.txt")
  ∧ tree second_run.2 !! (sample_root ++ ["missing.txt"])
    = Some (File (Py.encode "Symlink to: missing.txt")).
Proof. vm_compute. split_and!; reflexivity. Qed.

(** ** The whole run *)


Lemma open_w_writable p w :
  writable w p →
  ∃ loc, open_w p w = (Ret loc, with_tree w (<[loc := File []]> (tree w)))
         ∧ (tree w !! loc = None ∨ ∃ b, tree w !! loc = Some (File b)).
Proof.
  unfold writable, open_w, resolve.
  destruct (walk _ _ _ _ _) as [loc [|b|]|loc|] eqn:E; try done; intros _.
  - exists loc. split; [done|]. right. exists b.
    by destruct (walk_Found_node _ _ _ _ _ _ _ E).
  - exists loc. split; [done|]. left. by eapply walk_Missing_free.
Qed.








(* ================================================================= *)
(** * Further properties of main.py *)

(** ** The log never steers the run *)

Lemma same_files_sym w1 w2 : same_files w1 w2 → same_files w2 w1.
Proof. intros (H1 & H2 & H3). by split_and!. Qed.

Lemma resolve_same_files w1 w2 follow p :
  same_files w1 w2 → resolve w1 follow p = resolve w2 follow p.
Proof. intros (Ht & Hc & _). unfold resolve. by rewrite Ht, Hc. Qed.

Lemma same_files_with_tree w1 w2 t :
  same_files w1 w2 → same_files (with_tree w1 t) (with_tree w2 t).
Proof. intros (Ht & Hc & Hs). done. Qed.

Lemma log_blind_ret {A} (a : A) : log_blind (mret a).
Proof. by intros w1 w2 Hw. Qed.

Lemma log_blind_pass : log_blind pass.
Proof. apply log_blind_ret. Qed.

Lemma log_blind_raise {A} e : log_blind (@raise A e).
Proof. by intros w1 w2 Hw. Qed.

Lemma log_blind_lift {A} (r : outcome A) : log_blind (lift r).
Proof. by intros w1 w2 Hw. Qed.

Lemma log_blind_print line : log_blind (print line).
Proof. by intros w1 w2 Hw. Qed.

Lemma log_blind_log title value lv : log_blind (_log title value lv).
Proof. apply log_blind_print. Qed.

Lemma log_blind_bind {A B} (m : M A) (f : A → M B) :
  log_blind m → (∀ a, log_blind (f a)) → log_blind (m ≫= f).
Proof.
  intros Hm Hf w1 w2 Hw. rewrite !bind_run.
  destruct (Hm w1 w2 Hw) as [H1 H2].
  destruct (m w1) as [[a|e] w1'], (m w2) as [[a'|e'] w2']; simplify_eq/=; [|done].
  by apply Hf.
Qed.

Lemma log_blind_try_except {A} (body : M A) handler :
  log_blind body → (∀ e, log_blind (handler e)) → log_blind (try_except body handler).
Proof.
  intros Hm Hf w1 w2 Hw. unfold try_except.
  destruct (Hm w1 w2 Hw) as [H1 H2].
  destruct (body w1) as [[a|e] w1'], (body w2) as [[a'|e'] w2']; simplify_eq/=; [done|].
  by apply Hf.
Qed.

Lemma log_blind_for_each {A} (l : list A) body :
  (∀ x, log_blind (body x)) → log_blind (for_each l body).
Proof.
  intros Hb. induction l as [|x l IH]; [apply log_blind_pass|].
  cbn [for_each]. apply log_blind_bind; [apply Hb|done].
Qed.

Lemma log_blind_for_in {A} (g : generator A) body :
  (∀ x, log_blind (body x)) → log_blind (for_in g body).
Proof.
  intros Hb. unfold for_in. apply log_blind_bind; [by apply log_blind_for_each|].
  intros _. destruct (fails g); [apply log_blind_raise|apply log_blind_pass].
Qed.

(** The system calls look at the tree and the working directory only. *)
Ltac log_blind_syscall :=
  let w1 := fresh "w1" in let w2 := fresh "w2" in let Hw := fresh "Hw" in
  intros w1 w2 Hw;
  match goal with
  | |- context [?op _ w1] => unfold op
  | |- context [?op _ _ w1] => unfold op
  end;
  rewrite ?(resolve_same_files w1 w2 _ _ Hw);
  pose proof (same_files_with_tree w1 w2) as Hwt;
  destruct Hw as (Ht & Hc & Hs); rewrite ?Ht, ?Hs;
  repeat (match goal with
          | |- context [match ?x with _ => _ end] => destruct x
          end; try done);
  try (split; [done|]; apply Hwt; done).

Lemma log_blind_os_mkdir p : log_blind (os_mkdir p).
Proof. log_blind_syscall. Qed.

Lemma log_blind_Path_is_dir p : log_blind (Path_is_dir p).
Proof. log_blind_syscall. Qed.

Lemma log_blind_Path_exists p : log_blind (Path_exists p).
Proof. log_blind_syscall. Qed.

Lemma log_blind_Path_unlink p : log_blind (Path_unlink p).
Proof. log_blind_syscall. Qed.

Lemma log_blind_Path_symlink_to p target : log_blind (Path_symlink_to p target).
Proof. log_blind_syscall. Qed.

Lemma log_blind_open_w p : log_blind (open_w p).
Proof. log_blind_syscall. Qed.

Lemma log_blind_write f data : log_blind (write f data).
Proof. log_blind_syscall. Qed.

Lemma log_blind_read_bytes p : log_blind (read_bytes p).
Proof. log_blind_syscall. Qed.

Lemma log_blind_mkdir_except_OSError p exist_ok e :
  log_blind (mkdir_except_OSError p exist_ok e).
Proof.
  unfold mkdir_except_OSError. destruct (negb exist_ok); [apply log_blind_raise|].
  apply log_blind_bind; [apply log_blind_Path_is_dir|].
  intros []; [apply log_blind_pass|apply log_blind_raise].
Qed.

Lemma log_blind_mkdir_plain p exist_ok : log_blind (mkdir_plain p exist_ok).
Proof.
  unfold mkdir_plain. apply log_blind_try_except; [apply log_blind_os_mkdir|].
  intros [[]| | |]; first [apply log_blind_raise|apply log_blind_mkdir_except_OSError].
Qed.

Lemma log_blind_mkdir_rec n p parents exist_ok :
  log_blind (mkdir_rec n p parents exist_ok).
Proof.
  revert p parents exist_ok. induction n as [|n IH]; intros p parents exist_ok;
    cbn [mkdir_rec]; (apply log_blind_try_except; [apply log_blind_os_mkdir|]);
    intros [[]| | |]; try apply log_blind_mkdir_except_OSError;
    destruct (negb parents || bool_decide (parts (parent p) = parts p));
    try apply log_blind_raise.
  apply log_blind_bind; [apply IH|]. intros _. apply log_blind_mkdir_plain.
Qed.

Lemma log_blind_Path_mkdir p parents exist_ok :
  log_blind (Path_mkdir p parents exist_ok).
Proof. apply log_blind_mkdir_rec. Qed.

Lemma log_blind_handle_symlink item target_path :
  log_blind (_handle_symlink item target_path).
Proof.
  unfold _handle_symlink. apply log_blind_try_except; [|intros e; apply log_blind_log].
  apply log_blind_bind; [apply log_blind_lift|]. intros link_target.
  apply log_blind_bind; [apply log_blind_log|]. intros _.
  apply log_blind_bind; [apply log_blind_Path_exists|]. intros b.
  apply log_blind_bind.
  { destruct b; [apply log_blind_Path_unlink|apply log_blind_pass]. }
  intros _. apply log_blind_try_except; [apply log_blind_Path_symlink_to|].
  intros _. apply log_blind_bind; [apply log_blind_open_w|].
  intros f. apply log_blind_write.
Qed.

Lemma log_blind_extract_item extract_dir item :
  log_blind (extract_item extract_dir item).
Proof.
  unfold extract_item. apply log_blind_bind; [apply log_blind_Path_mkdir|]. intros _.
  destruct (negb (is_dir item)); [|apply log_blind_pass].
  apply log_blind_bind; [apply log_blind_log|]. intros _.
  destruct (is_file item).
  { apply log_blind_bind; [apply log_blind_open_w|]. intros f.
    apply log_blind_for_in. intros block. apply log_blind_write. }
  destruct (is_symlink item); [apply log_blind_handle_symlink|apply log_blind_pass].
Qed.

Lemma log_blind_print_superblock_info superblock :
  log_blind (print_superblock_info superblock).
Proof.
  unfold print_superblock_info.
  repeat first [apply log_blind_log | apply log_blind_lift
               | (apply log_blind_bind; [|intros ?])].
Qed.

Lemma log_blind_open_container `{Codec} self squashfs_path :
  log_blind (open_container self squashfs_path).
Proof.
  unfold open_container, SquashFsImage_from_file.
  repeat first [apply log_blind_log | apply log_blind_lift | apply log_blind_ret
               | apply log_blind_Path_mkdir | apply log_blind_read_bytes
               | apply log_blind_print_superblock_info
               | (apply log_blind_bind; [|intros ?])].
Qed.

Lemma log_blind_run {A} (m : M A) w1 w2 :
  log_blind m → same_files w1 w2 →
  ∃ w2', m w2 = ((m w1).1, w2') ∧ same_files (m w1).2 w2'.
Proof.
  intros Hm Hw. destruct (Hm w1 w2 Hw) as [H1 H2].
  exists (m w2).2. split; [|done]. rewrite H1. by destruct (m w2).
Qed.

(** ** The superblock report *)

Lemma Compression_of_known v :
  (0 ≤ v ≤ 6)%Z → ∃ c, Compression_of v = Ret c.
Proof.
  intros Hv.
  assert (v = 0 ∨ v = 1 ∨ v = 2 ∨ v = 3 ∨ v = 4 ∨ v = 5 ∨ v = 6)%Z
    as [->|[->|[->|[->|[->|[->| ->]]]]]] by lia; eauto.
Qed.

Lemma Compression_of_unknown v :
  ¬ (0 ≤ v ≤ 6)%Z →
  Compression_of v = Raise (ValueError (Py.str_int v +:+ " is not a valid Compression")).
Proof.
  intros Hv. destruct v as [|p|p]; [lia| |done].
  destruct p as [[[p|p|]|[p|p|]|]|[[p|p|]|[p|p|]|]|]; try done; lia.
Qed.

Lemma print_superblock_info_known superblock w :
  (0 ≤ compression superblock ≤ 6)%Z →
  ∃ lines, length lines = 15
    ∧ print_superblock_info superblock w = (Ret tt, logged w lines).
Proof.
  intros Hc. destruct (Compression_of_known _ Hc) as [c Hk].
  unfold print_superblock_info. rewrite Hk.
  cbv [mbind M_bind mret M_ret lift _log print]. cbn [Py.truthy_str].
  rewrite !logged_logged. eexists. split; [|reflexivity]. reflexivity.
Qed.

Lemma print_superblock_info_unknown superblock w :
  ¬ (0 ≤ compression superblock ≤ 6)%Z →
  ∃ lines, length lines = 5
    ∧ print_superblock_info superblock w
      = (Raise (ValueError (Py.str_int (compression superblock)
                            +:+ " is not a valid Compression")),
         logged w lines).
Proof.
  intros Hc. unfold print_superblock_info. rewrite (Compression_of_unknown _ Hc).
  cbv [mbind M_bind mret M_ret lift _log print]. cbn [Py.truthy_str].
  rewrite !logged_logged. eexists. split; [|reflexivity]. reflexivity.
Qed.

(** X1: the superblock report needs a known compression id.  With an id
    from 0 to 6 it prints its fifteen lines and returns; with any other id
    the lookup in the [Compression] enumeration raises [ValueError] after the
    first five lines.  In both cases only the log changes. *)
Theorem X1_superblock_report_compression (superblock : Superblock) (w : world) :
  ((0 ≤ compression superblock ≤ 6)%Z →
     ∃ lines, length lines = 15
       ∧ print_superblock_info superblock w = (Ret tt, logged w lines))
  ∧ (¬ (0 ≤ compression superblock ≤ 6)%Z →
       ∃ lines, length lines = 5
         ∧ print_superblock_info superblock w
           = (Raise (ValueError (Py.str_int (compression superblock)
                                 +:+ " is not a valid Compression")),
              logged w lines)).
Proof.
  split; [apply print_superblock_info_known|apply print_superblock_info_unknown].
Qed.

Lemma X1_superblock_report_compression_witness :
  (∃ lines, length lines = 15
     ∧ print_superblock_info sample_sblk sample_host = (Ret tt, logged sample_host lines))
  ∧ (∃ lines, length lines = 5
       ∧ print_superblock_info unknown_sblk sample_host
         = (Raise (ValueError "9 is not a valid Compression"), logged sample_host lines)).
Proof.
  split.
  - apply (X1_superblock_report_compression sample_sblk sample_host). cbn. lia.
  - apply (X1_superblock_report_compression unknown_sblk sample_host). cbn. lia.
Defined.

(** ** Failures before the first entry *)

Lemma read_bytes_run p w : read_bytes p w = ((read_bytes p w).1, w).
Proof.
  unfold read_bytes. destruct (resolve w true p) as [loc [| |]| |]; reflexivity.
Qed.

Lemma read_bytes_same_files p w1 w2 :
  same_files w1 w2 → (read_bytes p w2).1 = (read_bytes p w1).1.
Proof. intros Hw. symmetry. by apply log_blind_read_bytes. Qed.

Lemma mkdir_except_OSError_unchanged p exist_ok e r w w' :
  mkdir_except_OSError p exist_ok e w = (r, w') → w' = w.
Proof.
  unfold mkdir_except_OSError. destruct (negb exist_ok); [by intros [= _ <-]|].
  rewrite bind_run. unfold Path_is_dir.
  destruct (resolve w true p) as [loc [| |]| |]; by intros [= _ <-].
Qed.

(** Without [parents], a failing [mkdir] has created nothing. *)
Lemma Path_mkdir_plain_fails p exist_ok e w w' :
  Path_mkdir p false exist_ok w = (Raise e, w') → w' = w.
Proof.
  unfold Path_mkdir.
  assert (∀ n, mkdir_rec n p false exist_ok w = (Raise e, w') → w' = w) as Hn; [|apply Hn].
  intros n. destruct n; cbn [mkdir_rec]; unfold try_except;
    (destruct (os_mkdir p w) as [[[]|e0] w0] eqn:E; apply os_mkdir_inv in E;
       [done|subst w0]);
    destruct e0 as [[]| | |]; cbn [negb orb];
    first [by intros [= _ <-] | apply mkdir_except_OSError_unchanged].
Qed.

Section before_the_loop.
Context `{Codec}.
Variables (self : Firmware) (squashfs_path : Path) (w : world).

Lemma open_container_mkdir_fails e w1 :
  Path_mkdir (extract_dir_of self) false true w = (Raise e, w1) →
  ∃ w0, open_container self squashfs_path w = (Raise e, w0) ∧ same_files w w0.
Proof.
  intros Hmk. unfold open_container. rewrite bind_run.
  unfold _log at 1, print. rewrite bind_run.
  fold (extract_dir_of self).
  match goal with |- context [Path_mkdir _ _ _ ?wl] =>
    destruct (log_blind_run (Path_mkdir (extract_dir_of self) false true) w wl
                (log_blind_Path_mkdir _ _ _)) as (w0 & Hrun & Hsame); [done|]
  end.
  rewrite Hrun, Hmk. cbn [fst]. exists w0. split; [done|].
  rewrite Hmk in Hsame. cbn [snd] in Hsame.
  by rewrite <- (Path_mkdir_plain_fails _ _ _ _ _ Hmk).
Qed.

Lemma open_container_after_mkdir w1 :
  Path_mkdir (extract_dir_of self) false true w = (Ret tt, w1) →
  ∃ w0, same_files w1 w0 ∧
    open_container self squashfs_path w =
    match (read_bytes (of_str (str squashfs_path)) w1).1 with
    | Raise e => (Raise e, w0)
    | Ret data =>
        match squashfs_parse data with
        | Raise e => (Raise e, w0)
        | Ret image =>
            ((_log "SquashFS filesystem information" "" info;;
              print_superblock_info (sblk image);;
              _log "Extracting files" "" info;;
              mret (extract_dir_of self, image)) w0)
        end
    end.
Proof.
  intros Hmk. unfold open_container. rewrite bind_run.
  unfold _log at 1, print. rewrite bind_run.
  fold (extract_dir_of self).
  match goal with |- context [Path_mkdir _ _ _ ?wl] =>
    destruct (log_blind_run (Path_mkdir (extract_dir_of self) false true) w wl
                (log_blind_Path_mkdir _ _ _)) as (w0 & Hrun & Hsame); [done|]
  end.
  rewrite Hrun, Hmk. cbn [fst]. rewrite Hmk in Hsame. cbn [snd] in Hsame.
  rewrite bind_run. unfold _log at 1, print. rewrite bind_run.
  unfold SquashFsImage_from_file. rewrite bind_run, read_bytes_run.
  match goal with |- context [read_bytes _ ?wl] =>
    exists wl; rewrite (read_bytes_same_files _ w1 wl) by done
  end.
  split; [done|].
  destruct (read_bytes _ w1).1 as [data|e]; [|done].
  unfold lift. destruct (squashfs_parse data) as [image|e]; done.
Qed.

End before_the_loop.

(** X2: when the unpacking cannot get to its first entry it returns
    [False] and, the log apart, changes nothing beyond the extraction
    directory it begins with.  This is so when the extraction directory
    cannot be created, when the container file cannot be read, when the
    reader rejects it, and when its superblock has a compression id outside
    0..6: then no entry is processed, whatever the image contains. *)
Theorem X2_no_entry_without_container `{Codec} (self : Firmware)
    (squashfs_path : Path) (w : world) :
  let run := extract_squashfs_contents self squashfs_path w in
  let extract_dir := extract_dir_of self in
  (∀ e w1, Path_mkdir extract_dir false true w = (Raise e, w1) →
     run.1 = Ret false ∧ same_files w run.2)
  ∧ (∀ w1, Path_mkdir extract_dir false true w = (Ret tt, w1) →
       (∀ e, (read_bytes (of_str (str squashfs_path)) w1).1 = Raise e →
          run.1 = Ret false ∧ same_files w1 run.2)
       ∧ (∀ data, (read_bytes (of_str (str squashfs_path)) w1).1 = Ret data →
            (∀ e, squashfs_parse data = Raise e →
               run.1 = Ret false ∧ same_files w1 run.2)
            ∧ (∀ image, squashfs_parse data = Ret image →
                 ¬ (0 ≤ compression (sblk image) ≤ 6)%Z →
                 run.1 = Ret false ∧ same_files w1 run.2))).
Proof.
  intros run extract_dir. subst run extract_dir. split.
  - intros e w1 Hmk.
    enough (∃ w', extract_squashfs_contents self squashfs_path w = (Ret false, w')
                  ∧ same_files w w') as (w' & -> & ?) by done.
    rewrite extract_squashfs_contents_unfold.
    destruct (open_container_mkdir_fails self squashfs_path w e w1 Hmk)
      as (w0 & -> & Hsame). eauto.
  - intros w1 Hmk.
    enough ((∀ e, (read_bytes (of_str (str squashfs_path)) w1).1 = Raise e →
               ∃ w', extract_squashfs_contents self squashfs_path w = (Ret false, w')
                     ∧ same_files w1 w')
            ∧ (∀ data, (read_bytes (of_str (str squashfs_path)) w1).1 = Ret data →
                 (∀ e, squashfs_parse data = Raise e →
                    ∃ w', extract_squashfs_contents self squashfs_path w = (Ret false, w')
                          ∧ same_files w1 w')
                 ∧ (∀ image, squashfs_parse data = Ret image →
                      ¬ (0 ≤ compression (sblk image) ≤ 6)%Z →
                      ∃ w', extract_squashfs_contents self squashfs_path w = (Ret false, w')
                            ∧ same_files w1 w'))) as [Hread Hparse].
    { split; [|intros data Hdata; split].
      - intros e He. by destruct (Hread e He) as (w' & -> & ?).
      - intros e He. by destruct (proj1 (Hparse data Hdata) e He) as (w' & -> & ?).
      - intros image Hi Hc.
        by destruct (proj2 (Hparse data Hdata) image Hi Hc) as (w' & -> & ?). }
    rewrite extract_squashfs_contents_unfold.
    destruct (open_container_after_mkdir self squashfs_path w w1 Hmk)
      as (w0 & Hsame & ->).
    split; [|intros data Hdata; split].
    + intros e ->. eauto.
    + intros e He. rewrite Hdata, He. eauto.
    + intros image Himage Hc. rewrite Hdata, Himage.
      rewrite bind_run. unfold _log at 1, print. rewrite bind_run.
      match goal with |- context [print_superblock_info _ ?wl] =>
        destruct (print_superblock_info_unknown (sblk image) wl Hc)
          as (lines & _ & ->)
      end.
      eexists. split; [reflexivity|].
      eapply same_files_trans; [exact Hsame|]. by split_and!.
Qed.

(** An image whose superblock names compression 9: the file entry it
    lists is not unpacked. *)
Lemma X2_no_entry_without_container_witness :
  let codec := sample_codec (Ret {| sblk := unknown_sblk;
                                    image_iter := Generator [file_item "/a.txt" [x61]] None |}) in
  let run := @extract_squashfs_contents codec sample_self container_path unpack_host in
  run.1 = Ret false
  ∧ same_files (Path_mkdir (extract_dir_of sample_self) false true unpack_host).2 run.2.
Proof.
  intros codec run.
  refine (proj2 (proj2 (proj2 (@X2_no_entry_without_container codec sample_self
                                 container_path unpack_host)
                          (Path_mkdir (extract_dir_of sample_self) false true unpack_host).2 _)
                   [] _)
            {| sblk := unknown_sblk;
               image_iter := Generator [file_item "/a.txt" [x61]] None |} _ _).
  - refine (run_eta _ _ _). vm_compute. reflexivity.
  - vm_compute. reflexivity.
  - reflexivity.
  - cbn. lia.
Defined.

(** ** More on path resolution *)

(** Following a last link or not makes no difference unless the path ends
    in a link. *)
Lemma walk_nofollow_follow fuel t cur todo r :
  walk fuel t false cur todo = r →
  (∀ loc target, r ≠ Found loc (Symlink target)) →
  walk fuel t true cur todo = r.
Proof.
  intros Hw Hr. revert cur todo Hw.
  walk_induction fuel todo cur IHf IHt; [done|].
  case_decide; [by apply IHt|].
  destruct (t !! (cur ++ [c])) as [[|b|target]|] eqn:E; try done.
  - apply IHt.
  - cbn [negb]. rewrite andb_true_r, andb_false_r. case_bool_decide.
    { intros <-. by destruct (Hr (cur ++ [c]) target). }
    destruct fuel as [|fuel']; [done|]. case_decide; [done|].
    apply IHf. lia.
Qed.

(** Removing a regular file frees its name and nothing else. *)
Lemma walk_delete_File fuel t follow cur todo loc b :
  walk fuel t follow cur todo = Found loc (File b) →
  walk fuel (delete loc t) follow cur todo = Missing loc.
Proof.
  intros Hw.
  assert (t !! loc = Some (File b)) as Hloc.
  { by destruct (walk_Found_node _ _ _ _ _ _ _ Hw). }
  revert cur todo Hw. walk_induction fuel todo cur IHf IHt; [done|].
  case_decide; [by apply IHt|].
  destruct (decide (cur ++ [c] = loc)) as [->|Hne].
  - rewrite lookup_delete_eq, Hloc. by destruct rest.
  - rewrite lookup_delete_ne by done.
    destruct (t !! (cur ++ [c])) as [[|b'|target]|] eqn:E.
    + apply IHt.
    + destruct rest; [|done]. intros [= ? ?]. congruence.
    + destruct (bool_decide (rest = []) && negb follow); [done|].
      destruct fuel as [|fuel']; [done|]. case_decide; [done|].
      apply IHf. lia.
    + by destruct rest.
Qed.

(** ** The constructor *)

(** X3: [Firmware(path)] keeps the path and fixes the output directory to
    [extracted_firmware] (relative to the working directory).  If it
    returns, that directory exists.  An existing directory is accepted as it
    is; a free name is taken by a new directory; a regular file of that name
    makes the constructor raise [FileExistsError] with nothing changed. *)
Theorem X3_Firmware_init (path : string) (w : world) :
  let output := of_str "extracted_firmware" in
  let self := {| firmware_path := path; output_dir := output |} in
  let line := "[*] Created output directory: extracted_firmware" in
  (∀ self' w', Firmware_init path w = (Ret self', w') →
     self' = self ∧ stat w' output = Some Dir)
  ∧ (stat w output = Some Dir →
       Firmware_init path w = (Ret self, logged w [line]))
  ∧ (∀ loc, resolve w false output = Missing loc →
       Firmware_init path w
       = (Ret self, logged (with_tree w (<[loc := Dir]> (tree w))) [line]))
  ∧ (∀ loc b, resolve w false output = Found loc (File b) →
       Firmware_init path w = (Raise (OSError EEXIST), w)).
Proof.
  intros output self line. unfold Firmware_init. cbn zeta.
  change (str (output_dir {| firmware_path := path; output_dir := of_str "extracted_firmware" |}))
    with "extracted_firmware".
  cbn [output_dir]. fold output. split_and!.
  - intros self' w'. rewrite bind_run.
    destruct (Path_mkdir output false true w) as [[[]|e] w1] eqn:Hmk; [|done].
    intros [= <- <-]. split; [done|]. by apply Path_mkdir_post in Hmk.
  - intros Hdir. rewrite bind_run, (Path_mkdir_existing _ _ _ Hdir). reflexivity.
  - intros loc Hloc. rewrite bind_run.
    assert (Path_mkdir output false true w
            = (Ret tt, with_tree w (<[loc := Dir]> (tree w)))) as ->; [|reflexivity].
    unfold Path_mkdir. destruct (length (parts output)); cbn [mkdir_rec];
      unfold try_except, os_mkdir; by rewrite Hloc.
  - intros loc b Hloc. rewrite bind_run.
    assert (Path_mkdir output false true w = (Raise (OSError EEXIST), w)) as ->; [|done].
    assert (resolve w true output = Found loc (File b)) as Hfollow.
    { by apply walk_nofollow_follow. }
    unfold Path_mkdir. destruct (length (parts output)); cbn [mkdir_rec];
      unfold try_except, os_mkdir; rewrite Hloc;
      unfold mkdir_except_OSError; cbn [negb]; rewrite bind_run;
      unfold Path_is_dir; by rewrite Hfollow.
Qed.

Lemma X3_Firmware_init_witness :
  (Firmware_init "fw.bin" sample_host).1 = Ret sample_self
  ∧ (Firmware_init "fw.bin" blocked_host).1 = Raise (OSError EEXIST).
Proof.
  split.
  - rewrite (proj1 (proj2 (X3_Firmware_init "fw.bin" sample_host))); [reflexivity|].
    vm_compute. reflexivity.
  - rewrite (proj2 (proj2 (proj2 (X3_Firmware_init "fw.bin" blocked_host)))
               ["work"; "extracted_firmware"] [x00]); [reflexivity|].
    vm_compute. reflexivity.
Defined.

(** ** What the symlink handler leaves behind *)

(** At a free name: the link if the host can create it, the placeholder
    file otherwise. *)
Lemma link_or_placeholder p link_target w loc :
  resolve w false p = Missing loc →
  resolve w true p = Missing loc →
  try_except (Path_symlink_to p link_target)
    (λ _, f ← open_w p; write f (Py.encode ("Symlink to: " +:+ link_target))) w
  = (Ret tt,
     with_tree w
       (<[loc := if symlinks_supported w && negb (bool_decide (link_target = EmptyString))
                 then Symlink link_target
                 else File (Py.encode ("Symlink to: " +:+ link_target))]> (tree w))).
Proof.
  intros Hno Hfo.
  assert ((f ← open_w p; write f (Py.encode ("Symlink to: " +:+ link_target))) w
          = (Ret tt, with_tree w (<[loc := File (Py.encode ("Symlink to: " +:+ link_target))]>
                                    (tree w)))) as Hfallback.
  { rewrite bind_run. unfold open_w. rewrite Hfo. unfold write.
    cbn [with_tree tree]. rewrite lookup_insert_eq. cbn [app].
    unfold with_tree. cbn [tree cwd symlinks_supported stdout].
    by rewrite insert_insert_eq. }
  unfold try_except, Path_symlink_to. rewrite Hno.
  destruct (symlinks_supported w); cbn [negb andb]; [|exact Hfallback].
  case_decide as Ht.
  - rewrite bool_decide_eq_true_2 by done. exact Hfallback.
  - by rewrite bool_decide_eq_false_2 by done.
Qed.

(** X4: when the target path is a free name, or a regular file such as
    the placeholder of an earlier run, the symlink handler returns having put
    at that location a symbolic link to the entry's target if the host can
    create one, and otherwise a regular file that holds exactly
    [Symlink to: <target>].  It prints one line and changes nothing else. *)
Theorem X4_handle_symlink_result (item : Item) (target_path : Path) (w : world)
    (link_target : string) (loc : list string) :
  readlink item = Ret link_target →
  (resolve w false target_path = Missing loc
   ∨ ∃ b, resolve w false target_path = Found loc (File b)) →
  _handle_symlink item target_path w
  = (Ret tt,
     with_tree (logged w ["[*] Creating symlink: " +:+ (path item +:+ " -> " +:+ link_target)])
       (<[loc := if symlinks_supported w && negb (bool_decide (link_target = EmptyString))
                 then Symlink link_target
                 else File (Py.encode ("Symlink to: " +:+ link_target))]> (tree w))).
Proof.
  intros Hlink Hloc. unfold _handle_symlink at 1.
  unfold try_except at 1. rewrite bind_run. unfold lift. rewrite Hlink.
  rewrite bind_run. unfold _log at 1, print.
  replace (Py.truthy_str (path item +:+ " -> " +:+ link_target)) with true; last first.
  { destruct (path item); reflexivity. }
  change (symbols_get info +:+ " " +:+ "Creating symlink" +:+ ": "
          +:+ path item +:+ " -> " +:+ link_target)
    with ("[*] Creating symlink: " +:+ (path item +:+ " -> " +:+ link_target)).
  set (wl := logged w _).
  rewrite bind_run. unfold Path_exists.
  change (resolve wl true target_path) with (resolve w true target_path).
  destruct Hloc as [Hno|[b Hno]].
  - assert (resolve w true target_path = Missing loc) as Hfo.
    { by apply walk_nofollow_follow. }
    rewrite Hfo, bind_run. unfold pass at 1. cbn [mret M_ret].
    by rewrite (link_or_placeholder target_path link_target wl loc Hno Hfo).
  - assert (resolve w true target_path = Found loc (File b)) as Hfo.
    { by apply walk_nofollow_follow. }
    rewrite Hfo, bind_run. unfold Path_unlink.
    change (resolve wl false target_path) with (resolve w false target_path).
    rewrite Hno.
    rewrite (link_or_placeholder target_path link_target
               (with_tree wl (delete loc (tree wl))) loc).
    + unfold with_tree. cbn [tree cwd symlinks_supported stdout].
      by rewrite insert_delete_eq.
    + apply (walk_delete_File _ _ _ _ _ _ _ Hno).
    + apply (walk_delete_File _ _ _ _ _ _ _ Hfo).
Qed.

(** On a host that cannot create links, the entry [/l -> a/b.txt] becomes
    the placeholder file. *)
Lemma X4_handle_symlink_result_witness :
  let item := symlink_item "/l" "a/b.txt" in
  let run := _handle_symlink item (of_str "l") linkless_host in
  run.1 = Ret tt
  ∧ tree run.2 !! ["work"; "l"] = Some (File (Py.encode "Symlink to: a/b.txt")).
Proof.
  intros item run. subst run.
  rewrite (X4_handle_symlink_result item (of_str "l") linkless_host "a/b.txt" ["work"; "l"]).
  - split; [reflexivity|]. vm_compute. reflexivity.
  - reflexivity.
  - left. vm_compute. reflexivity.
Defined.

(** ** What a file entry leaves behind *)

Lemma with_tree_id w : with_tree w (tree w) = w.
Proof. by destruct w. Qed.

Lemma for_each_write blocks f c w :
  tree w !! f = Some (File c) →
  for_each blocks (write f) w
  = (Ret tt, with_tree w (<[f := File (c ++ concat blocks)]> (tree w))).
Proof.
  revert c w. induction blocks as [|block blocks IH]; intros c w Hf.
  - cbn [for_each concat]. rewrite app_nil_r, insert_id by done.
    by rewrite with_tree_id.
  - cbn [for_each concat]. rewrite bind_run. unfold write at 1. rewrite Hf.
    rewrite (IH (c ++ block)); cbn [with_tree tree]; [|apply lookup_insert_eq].
    unfold with_tree. cbn [tree cwd symlinks_supported stdout].
    by rewrite insert_insert_eq, app_assoc.
Qed.

Lemma writable_inv w p :
  writable w p →
  ∃ loc, resolve w true p = Missing loc ∨ ∃ b, resolve w true p = Found loc (File b).
Proof.
  unfold writable. destruct (resolve w true p) as [loc [|b|]|loc|]; try done; eauto.
Qed.

Lemma open_w_Ret_writable p w f w' : open_w p w = (Ret f, w') → writable w p.
Proof.
  unfold open_w, writable. by destruct (resolve w true p) as [loc [|b|]|loc|].
Qed.

(** Opening a path for writing and streaming the blocks of a generator
    into it: the file holds the blocks yielded, whether the generator ends
    or fails. *)
Lemma stream_to_file p (g : generator bytes) w :
  writable w p →
  ∃ w', (f ← open_w p; for_in g (λ block, write f block)) w
        = (match fails g with None => Ret tt | Some e => Raise e end, w')
        ∧ stat w' p = Some (File (concat (yields g))).
Proof.
  intros Hp. destruct (open_w_writable _ _ Hp) as (loc & Hopen & Hloc).
  rewrite bind_run, Hopen. unfold for_in. rewrite bind_run.
  rewrite (for_each_write _ loc []); cbn [with_tree tree]; [|apply lookup_insert_eq].
  cbn [app]. rewrite insert_insert_eq.
  exists (with_tree w (<[loc := File (concat (yields g))]> (tree w))). split.
  { by destruct (fails g). }
  unfold stat, resolve. cbn [with_tree tree cwd].
  pose proof (walk_insert_File MAXSYMLINKS (tree w) true
                (if anchored p then [] else cwd w) (parts p) loc
                (concat (yields g)) Hloc) as Hw.
  unfold open_w, resolve in Hopen.
  destruct (walk _ (tree w) _ _ _) as [l [|b|]|l|]; try done;
    simplify_eq; rewrite Hw; by rewrite decide_True.
Qed.

(** X5: a regular-file entry whose parent directories can be created and
    whose target can be opened for writing ends up as a file that holds
    exactly the blocks of its content stream, in order, in place of whatever
    the file held before.  When the stream fails part-way the exception
    leaves [extract_item] and the file keeps the blocks yielded before the
    failure.  In particular, whenever [extract_item] returns for a file entry
    the file on disk is the concatenation of the entry's blocks. *)
Theorem X5_file_entry_content (extract_dir : Path) (item : Item) (w : world) :
  is_file item = true →
  let target_path := target_path_of extract_dir item in
  let content := concat (yields (iter_bytes item)) in
  (∀ w1, Path_mkdir (parent target_path) true true w = (Ret tt, w1) →
     writable w1 target_path →
     ∃ w', extract_item extract_dir item w
           = (match fails (iter_bytes item) with
              | None => Ret tt
              | Some e => Raise e
              end, w')
           ∧ stat w' target_path = Some (File content))
  ∧ (∀ w', extract_item extract_dir item w = (Ret tt, w') →
       fails (iter_bytes item) = None
       ∧ stat w' target_path = Some (File content)).
Proof.
  intros Hfile target_path content.
  assert (∀ w0, extract_item extract_dir item w0 =
    match Path_mkdir (parent target_path) true true w0 with
    | (Ret _, w1) =>
        (f ← open_w target_path; for_in (iter_bytes item) (λ block, write f block))
          (logged w1 [if Py.truthy_str (path item)
                      then symbols_get success +:+ " " +:+ "Extracting" +:+ ": " +:+ path item
                      else symbols_get success +:+ " " +:+ "Extracting"])
    | (Raise e, w1) => (Raise e, w1)
    end) as Hunfold.
  { intros w0. unfold extract_item, is_file, is_dir in *.
    by destruct (item_kind item). }
  split.
  - intros w1 Hmk Hwr. rewrite Hunfold, Hmk. by apply stream_to_file.
  - intros w'. rewrite Hunfold.
    destruct (Path_mkdir _ _ _ w) as [[[]|e] w1]; [|done].
    match goal with |- ?m ?wl = _ → _ => intros Hrun;
      assert (writable wl target_path) as Hwr end.
    { rewrite bind_run in Hrun.
      destruct (open_w target_path _) as [[f|e] w2] eqn:Hopen; [|done].
      by eapply open_w_Ret_writable. }
    destruct (stream_to_file target_path (iter_bytes item) _ Hwr) as (w'' & Hs & Hstat).
    rewrite Hs in Hrun. destruct (fails (iter_bytes item)); [done|].
    by simplify_eq.
Qed.

(** The entry [/a/b.txt] with content [hi] on the sample host. *)
Lemma X5_file_entry_content_witness :
  let item := file_item "/a/b.txt" [x68; x69] in
  let run := extract_item (extract_dir_of sample_self) item unpack_host in
  run.1 = Ret tt
  ∧ stat run.2 (target_path_of (extract_dir_of sample_self) item)
    = Some (File [x68; x69]).
Proof.
  intros item run. split.
  - vm_compute. reflexivity.
  - apply (proj2 (X5_file_entry_content (extract_dir_of sample_self) item unpack_host
                    eq_refl) run.2).
    refine (run_eta _ _ _). vm_compute. reflexivity.
Defined.

(** ** The command line *)



(** ** Candidate offsets outside the buffer *)

Lemma slice_from_negative {A} (l : list A) (i : Z) :
  (- Z.of_nat (length l) ≤ i < 0)%Z →
  Py.slice_from l i = Py.slice_from l (Z.of_nat (length l) + i).
Proof.
  intros Hi. unfold Py.slice_from, Py.adjust_index.
  destruct (Z.ltb_spec i 0); [|lia].
  destruct (Z.ltb_spec (i + Z.of_nat (length l)) 0); [lia|].
  destruct (Z.ltb_spec (Z.of_nat (length l) + i) 0); [lia|].
  destruct (Z.leb_spec (Z.of_nat (length l)) (Z.of_nat (length l) + i)); [lia|].
  f_equal. lia.
Qed.

Lemma slice_from_before_start {A} (l : list A) (i : Z) :
  (i < - Z.of_nat (length l))%Z → Py.slice_from l i = l.
Proof.
  intros Hi. unfold Py.slice_from, Py.adjust_index.
  destruct (Z.ltb_spec i 0); [|lia].
  destruct (Z.ltb_spec (i + Z.of_nat (length l)) 0); [done|lia].
Qed.

Lemma slice_from_past_end {A} (l : list A) (i : Z) :
  (Z.of_nat (length l) ≤ i)%Z → Py.slice_from l i = [].
Proof.
  intros Hi. unfold Py.slice_from. rewrite adjust_index_beyond by lia.
  apply drop_ge. lia.
Qed.

(** X7: a candidate offset outside the buffer is not an error.  A negative
    candidate (as [offset - 13] is for a nominal offset below 13) counts
    from the end of the buffer, so the attempt decodes the last bytes of the
    firmware; below minus the length it decodes the whole buffer; a
    candidate at or past the end decodes the empty byte string.  The attempt
    then decides exactly as the attempt at the equivalent offset inside the
    buffer. *)
Theorem X7_candidates_outside_buffer `{Codec} (firmware_data : bytes)
    (dictionary_size c : Z) (w : world) :
  let len := Z.of_nat (length firmware_data) in
  let outcome_at test_offset :=
    (try_offset firmware_data dictionary_size test_offset w).1 in
  ((- len ≤ c < 0)%Z →
     Py.slice_from firmware_data c
     = drop (Z.to_nat (len + c)) firmware_data
     ∧ outcome_at c = outcome_at (len + c)%Z)
  ∧ ((c < - len)%Z →
       Py.slice_from firmware_data c = firmware_data
       ∧ outcome_at c = outcome_at 0%Z)
  ∧ ((len ≤ c)%Z →
       Py.slice_from firmware_data c = []
       ∧ outcome_at c = outcome_at len).
Proof.
  intros len outcome_at. subst outcome_at.
  assert (∀ c1 c2, Py.slice_from firmware_data c1 = Py.slice_from firmware_data c2 →
            (try_offset firmware_data dictionary_size c1 w).1
            = (try_offset firmware_data dictionary_size c2 w).1) as Hsame.
  { intros c1 c2 Hs.
    destruct (try_offset_run firmware_data dictionary_size c1) as [l1 ->].
    destruct (try_offset_run firmware_data dictionary_size c2) as [l2 ->].
    cbn [fst]. unfold decode_at. by rewrite Hs. }
  split_and!; intros Hc.
  - split; [|by apply Hsame, slice_from_negative].
    rewrite slice_from_negative by done. unfold Py.slice_from.
    rewrite adjust_index_in_range; [done|]. subst len. lia.
  - split; [by apply slice_from_before_start|]. apply Hsame.
    rewrite slice_from_before_start by done. unfold Py.slice_from.
    rewrite adjust_index_in_range; [done|]. lia.
  - split; [by apply slice_from_past_end|]. apply Hsame.
    rewrite !slice_from_past_end; [done| |done]. subst len. lia.
Qed.

(** For a nominal offset 0 the candidate -1 is the last byte. *)
Lemma X7_candidates_outside_buffer_witness :
  Py.slice_from [x00; x01; x5d] (-1) = [x5d]
  ∧ (@try_offset (sample_codec (Raise LZMAError)) [x00; x01; x5d] 4096 (-1) sample_host).1
    = (@try_offset (sample_codec (Raise LZMAError)) [x00; x01; x5d] 4096 2 sample_host).1.
Proof.
  apply (@X7_candidates_outside_buffer (sample_codec (Raise LZMAError))
           [x00; x01; x5d] 4096 (-1) sample_host).
  cbn. lia.
Defined.

(** ** The length of the extracted segment *)

(** X8: for a non-negative offset and size the extractor returns
    [min(size, len - offset)] bytes, and none when the offset is at or past
    the end of the buffer: a firmware shorter than the expected container
    start yields an empty container, not an error. *)
Theorem X8_extract_length (buffer : bytes) (offset size : Z) (w : world) :
  (0 ≤ offset)%Z → (0 ≤ size)%Z →
  ∃ segment,
    (extract_squashfs_section buffer offset size w).1 = Ret segment
    ∧ Z.of_nat (length segment)
      = Z.max 0 (Z.min size (Z.of_nat (length buffer) - offset))
    ∧ ((Z.of_nat (length buffer) ≤ offset)%Z → segment = []).
Proof.
  intros Ho Hs. eexists. split; [reflexivity|].
  unfold Py.slice. set (len := Z.of_nat (length buffer)).
  assert (0 ≤ len)%Z by (subst len; lia).
  assert (length (take (Z.to_nat (Py.adjust_index len (offset + size)
                                  - Py.adjust_index len offset))
                    (drop (Z.to_nat (Py.adjust_index len offset)) buffer))
          = Z.to_nat (Z.max 0 (Z.min size (len - offset)))) as Hlen.
  { rewrite length_take, length_drop.
    destruct (Z.le_gt_cases len offset).
    - rewrite !adjust_index_beyond by lia. lia.
    - rewrite (adjust_index_in_range len offset) by lia.
      destruct (Z.le_gt_cases len (offset + size)).
      + rewrite adjust_index_beyond by lia. lia.
      + rewrite adjust_index_in_range by lia. lia. }
  split; [lia|].
  intros Hpast. apply length_zero_iff_nil. rewrite Hlen. lia.
Qed.

Lemma X8_extract_length_witness :
  ∃ segment,
    (extract_squashfs_section [x00; x01; x02] 2751522 5159718 sample_host).1 = Ret segment
    ∧ Z.of_nat (length segment) = Z.max 0 (Z.min 5159718 (3 - 2751522))
    ∧ ((3 ≤ 2751522)%Z → segment = []).
Proof.
  apply (X8_extract_length [x00; x01; x02] 2751522 5159718 sample_host); lia.
Defined.

(** ** Directories are never removed *)

Lemma keeps_dirs_refl w : keeps_dirs w w.
Proof. by split. Qed.

Lemma keeps_dirs_trans w1 w2 w3 :
  keeps_dirs w1 w2 → keeps_dirs w2 w3 → keeps_dirs w1 w3.
Proof. intros [Hc1 H1] [Hc2 H2]. split; [congruence|auto]. Qed.

Lemma dir_safe_ret {A} (a : A) : dir_safe (mret a).
Proof. intros w. apply keeps_dirs_refl. Qed.

Lemma dir_safe_pass : dir_safe pass.
Proof. apply dir_safe_ret. Qed.

Lemma dir_safe_raise {A} e : dir_safe (@raise A e).
Proof. intros w. apply keeps_dirs_refl. Qed.

Lemma dir_safe_lift {A} (r : outcome A) : dir_safe (lift r).
Proof. intros w. apply keeps_dirs_refl. Qed.

Lemma dir_safe_log title value lv : dir_safe (_log title value lv).
Proof. intros w. by split. Qed.

Lemma dir_safe_print line : dir_safe (print line).
Proof. intros w. by split. Qed.

Lemma dir_safe_bind {A B} (m : M A) (f : A → M B) :
  dir_safe m → (∀ a, dir_safe (f a)) → dir_safe (m ≫= f).
Proof.
  intros Hm Hf w. rewrite bind_run. specialize (Hm w).
  destruct (m w) as [[a|e] w1]; [|done].
  eapply keeps_dirs_trans; [exact Hm|apply Hf].
Qed.

Lemma dir_safe_try_except {A} (body : M A) handler :
  dir_safe body → (∀ e, dir_safe (handler e)) → dir_safe (try_except body handler).
Proof.
  intros Hm Hf w. unfold try_except. specialize (Hm w).
  destruct (body w) as [[a|e] w1]; [done|].
  eapply keeps_dirs_trans; [exact Hm|apply Hf].
Qed.

Lemma dir_safe_for_each {A} (l : list A) body :
  (∀ x, dir_safe (body x)) → dir_safe (for_each l body).
Proof.
  intros Hb. induction l as [|x l IH]; [apply dir_safe_pass|].
  cbn [for_each]. apply dir_safe_bind; [apply Hb|done].
Qed.

Lemma dir_safe_for_in {A} (g : generator A) body :
  (∀ x, dir_safe (body x)) → dir_safe (for_in g body).
Proof.
  intros Hb. unfold for_in. apply dir_safe_bind; [by apply dir_safe_for_each|].
  intros _. destruct (fails g); [apply dir_safe_raise|apply dir_safe_pass].
Qed.

Lemma keeps_dirs_insert_free w loc n :
  tree w !! loc = None → keeps_dirs w (with_tree w (<[loc := n]> (tree w))).
Proof.
  intros Hfree. split; [done|]. intros loc' Hd. cbn [with_tree tree].
  rewrite lookup_insert_ne; [done|]. congruence.
Qed.

Lemma keeps_dirs_insert_over_File w loc b n :
  tree w !! loc = Some (File b) → keeps_dirs w (with_tree w (<[loc := n]> (tree w))).
Proof.
  intros Hfile. split; [done|]. intros loc' Hd. cbn [with_tree tree].
  rewrite lookup_insert_ne; [done|]. congruence.
Qed.

Lemma keeps_dirs_delete w loc n :
  tree w !! loc = Some n → n ≠ Dir →
  keeps_dirs w (with_tree w (delete loc (tree w))).
Proof.
  intros Hn Hne. split; [done|]. intros loc' Hd. cbn [with_tree tree].
  rewrite lookup_delete_ne; [done|]. congruence.
Qed.

Lemma dir_safe_os_mkdir p : dir_safe (os_mkdir p).
Proof.
  intros w. unfold os_mkdir, resolve.
  destruct (walk _ _ _ _ _) as [loc n|loc|e] eqn:E; try apply keeps_dirs_refl.
  apply keeps_dirs_insert_free. by eapply walk_Missing_free.
Qed.

Lemma dir_safe_Path_is_dir p : dir_safe (Path_is_dir p).
Proof.
  intros w. unfold Path_is_dir.
  destruct (resolve w true p) as [loc [| |]| |]; apply keeps_dirs_refl.
Qed.

Lemma dir_safe_Path_exists p : dir_safe (Path_exists p).
Proof.
  intros w. unfold Path_exists.
  destruct (resolve w true p) as [loc n| |]; apply keeps_dirs_refl.
Qed.

Lemma dir_safe_read_bytes p : dir_safe (read_bytes p).
Proof. intros w. rewrite read_bytes_run. apply keeps_dirs_refl. Qed.

Lemma dir_safe_Path_unlink p : dir_safe (Path_unlink p).
Proof.
  intros w. unfold Path_unlink, resolve.
  destruct (walk _ _ _ _ _) as [loc n|loc|e] eqn:E; try apply keeps_dirs_refl.
  destruct (walk_Found_node _ _ _ _ _ _ _ E) as [->|Hn]; [apply keeps_dirs_refl|].
  destruct n as [|b|target]; [apply keeps_dirs_refl| |];
    by eapply keeps_dirs_delete.
Qed.

Lemma dir_safe_Path_symlink_to p target : dir_safe (Path_symlink_to p target).
Proof.
  intros w. unfold Path_symlink_to, resolve.
  destruct (walk _ _ _ _ _) as [loc n|loc|e] eqn:E; try apply keeps_dirs_refl.
  destruct (negb (symlinks_supported w)); [apply keeps_dirs_refl|].
  case_decide; [apply keeps_dirs_refl|].
  apply keeps_dirs_insert_free. by eapply walk_Missing_free.
Qed.

Lemma dir_safe_open_w p : dir_safe (open_w p).
Proof.
  intros w. unfold open_w, resolve.
  destruct (walk _ _ _ _ _) as [loc [|b|target]|loc|e] eqn:E;
    try apply keeps_dirs_refl.
  - destruct (walk_Found_node _ _ _ _ _ _ _ E) as [?|Hn]; [done|].
    by eapply keeps_dirs_insert_over_File.
  - apply keeps_dirs_insert_free. by eapply walk_Missing_free.
Qed.

Lemma dir_safe_write f data : dir_safe (write f data).
Proof.
  intros w. unfold write.
  destruct (tree w !! f) as [[|c|target]|] eqn:E; try apply keeps_dirs_refl.
  by eapply keeps_dirs_insert_over_File.
Qed.

Lemma dir_safe_mkdir_except_OSError p exist_ok e :
  dir_safe (mkdir_except_OSError p exist_ok e).
Proof.
  unfold mkdir_except_OSError. destruct (negb exist_ok); [apply dir_safe_raise|].
  apply dir_safe_bind; [apply dir_safe_Path_is_dir|].
  intros []; [apply dir_safe_pass|apply dir_safe_raise].
Qed.

Lemma dir_safe_mkdir_plain p exist_ok : dir_safe (mkdir_plain p exist_ok).
Proof.
  unfold mkdir_plain. apply dir_safe_try_except; [apply dir_safe_os_mkdir|].
  intros [[]| | |]; first [apply dir_safe_raise|apply dir_safe_mkdir_except_OSError].
Qed.

Lemma dir_safe_mkdir_rec n p parents exist_ok :
  dir_safe (mkdir_rec n p parents exist_ok).
Proof.
  revert p parents exist_ok. induction n as [|n IH]; intros p parents exist_ok;
    cbn [mkdir_rec]; (apply dir_safe_try_except; [apply dir_safe_os_mkdir|]);
    intros [[]| | |]; try apply dir_safe_mkdir_except_OSError;
    destruct (negb parents || bool_decide (parts (parent p) = parts p));
    try apply dir_safe_raise.
  apply dir_safe_bind; [apply IH|]. intros _. apply dir_safe_mkdir_plain.
Qed.

Lemma dir_safe_Path_mkdir p parents exist_ok :
  dir_safe (Path_mkdir p parents exist_ok).
Proof. apply dir_safe_mkdir_rec. Qed.

Lemma dir_safe_handle_symlink item target_path :
  dir_safe (_handle_symlink item target_path).
Proof.
  unfold _handle_symlink. apply dir_safe_try_except; [|intros e; apply dir_safe_log].
  apply dir_safe_bind; [apply dir_safe_lift|]. intros link_target.
  apply dir_safe_bind; [apply dir_safe_log|]. intros _.
  apply dir_safe_bind; [apply dir_safe_Path_exists|]. intros b.
  apply dir_safe_bind.
  { destruct b; [apply dir_safe_Path_unlink|apply dir_safe_pass]. }
  intros _. apply dir_safe_try_except; [apply dir_safe_Path_symlink_to|].
  intros _. apply dir_safe_bind; [apply dir_safe_open_w|].
  intros f. apply dir_safe_write.
Qed.

Lemma dir_safe_extract_item extract_dir item :
  dir_safe (extract_item extract_dir item).
Proof.
  unfold extract_item. apply dir_safe_bind; [apply dir_safe_Path_mkdir|]. intros _.
  destruct (negb (is_dir item)); [|apply dir_safe_pass].
  apply dir_safe_bind; [apply dir_safe_log|]. intros _.
  destruct (is_file item).
  { apply dir_safe_bind; [apply dir_safe_open_w|]. intros f.
    apply dir_safe_for_in. intros block. apply dir_safe_write. }
  destruct (is_symlink item); [apply dir_safe_handle_symlink|apply dir_safe_pass].
Qed.

Lemma dir_safe_print_superblock_info superblock :
  dir_safe (print_superblock_info superblock).
Proof.
  unfold print_superblock_info.
  repeat first [apply dir_safe_log | apply dir_safe_lift
               | (apply dir_safe_bind; [|intros ?])].
Qed.

Ltac dir_safe_step :=
  first
    [ apply dir_safe_log | apply dir_safe_lift | apply dir_safe_ret
    | apply dir_safe_pass | apply dir_safe_raise | apply dir_safe_print
    | apply dir_safe_Path_mkdir | apply dir_safe_read_bytes
    | apply dir_safe_open_w | apply dir_safe_write | apply dir_safe_Path_exists
    | apply dir_safe_extract_item | apply dir_safe_print_superblock_info
    | (apply dir_safe_for_in; intros ?)
    | (apply dir_safe_try_except; [|intros ?])
    | (apply dir_safe_bind; [|intros ?]) ].

Ltac dir_safe_steps := repeat dir_safe_step.

Lemma dir_safe_extract_squashfs_contents `{Codec} self squashfs_path :
  dir_safe (extract_squashfs_contents self squashfs_path).
Proof.
  unfold extract_squashfs_contents, open_container, SquashFsImage_from_file.
  apply dir_safe_try_except; [|intros e; dir_safe_steps].
  apply dir_safe_bind.
  { dir_safe_steps. }
  intros [extract_dir image]. dir_safe_steps.
Qed.

Lemma dir_safe_extract_lzma_section `{Codec} firmware_data offset dictionary_size
    uncompressed_size :
  dir_safe (extract_lzma_section firmware_data offset dictionary_size uncompressed_size).
Proof.
  intros w.
  destruct (extract_lzma_section_run firmware_data dictionary_size offset) as [lines ->].
  by split.
Qed.

Lemma dir_safe_extract_firmware `{Codec} self : dir_safe (extract_firmware self).
Proof.
  unfold extract_firmware, extract_squashfs_section.
  apply dir_safe_bind; [apply dir_safe_log|]. intros _.
  apply dir_safe_bind; [dir_safe_steps|].
  intros [firmware_data|]; [|apply dir_safe_ret].
  apply dir_safe_bind; [apply dir_safe_extract_lzma_section|].
  intros lzma_data. apply dir_safe_bind.
  { destruct lzma_data as [data|]; [|apply dir_safe_log].
    destruct (Py.truthy_bytes data); dir_safe_steps. }
  intros _. repeat first [apply dir_safe_extract_squashfs_contents | dir_safe_step].
Qed.

(** X9: the program never removes or replaces a directory.  Whatever the
    arguments, the firmware and the image contain, and whether the run
    returns or raises, every directory that existed before [main] (or
    [extract_firmware], or [extract_squashfs_contents]) still exists at the
    same location afterwards, and the working directory is the same. *)
Theorem X9_directories_survive `{Codec} (self : Firmware) (squashfs_path : Path)
    (argv : list string) (w : world) :
  keeps_dirs w (extract_squashfs_contents self squashfs_path w).2
  ∧ keeps_dirs w (extract_firmware self w).2
  ∧ keeps_dirs w (main argv w).2.
Proof.
  split_and!.
  - apply dir_safe_extract_squashfs_contents.
  - apply dir_safe_extract_firmware.
  - revert w. change (dir_safe (main argv)).
    destruct argv as [|a [|b [|c rest]]]; cbn [main]; try apply dir_safe_print.
    apply dir_safe_bind; [apply dir_safe_Path_exists|].
    intros []; [|apply dir_safe_print].
    unfold Firmware_init.
    repeat first [apply dir_safe_extract_firmware | dir_safe_step].
Qed.
